(** * FreeRTOS cellular demo: plaintext UDP transport adapter and echo task

    A shallow embedding of

      - source/transport/using_plaintext_udp.c
          (Plaintext_FreeRTOS_UDP_Connect, Plaintext_FreeRTOS_UDP_Disconnect,
           Plaintext_FreeRTOS_recvFrom, Plaintext_FreeRTOS_sendTo)
      - projects/hl7802_udp_echo_demo/echoTask.c
          (prvInitializeTestData, prvSendPackets, prvRecvPackets,
           prvLoopSendAndReceive, RunEchoTask)

    Conventions.
      - C integers are [Z]; conversions that matter are written out
        ([to_size_t], [to_uint8], [to_uint16], [to_uint32]).  The target is a
        32-bit microcontroller: [size_t] is 32 bits wide.
      - A pointer that the code tests against NULL is an [option].
      - A byte is a [Z] in [0, 256); a byte array is a [list Z].
      - The sockets wrapper library is external.  It is a record of response
        functions [SocketsLib]; every call into it is appended to a
        chronological log, the [World], and the response may depend on that
        whole history.
      - Loops that the C code does not bound carry a [fuel]; running out of
        fuel yields [None] as result together with the state reached. *)

From stdpp Require Import base list list_numbers numbers strings sorting.

Local Open Scope Z_scope.

(** ** Machine integers *)

Definition to_uint8 (z : Z) : Z := z mod 2 ^ 8.
Definition to_uint16 (z : Z) : Z := z mod 2 ^ 16.
Definition to_uint32 (z : Z) : Z := z mod 2 ^ 32.
Definition to_size_t (z : Z) : Z := z mod 2 ^ 32.

(** ** Memory helpers of the C library *)

(** [memcmp a b n]: zero when the first [n] bytes agree, otherwise the
    difference of the first pair of bytes that differ. *)
Fixpoint memcmp (a b : list Z) (n : nat) : Z :=
  match n, a, b with
  | S n', x :: a', y :: b' => if x =? y then memcmp a' b' n' else x - y
  | _, _, _ => 0
  end.

(** [memset buf c n]: the first [n] bytes become [c]. *)
Definition memset (buf : list Z) (c : Z) (n : nat) : list Z :=
  replicate (Nat.min n (length buf)) (to_uint8 c) ++ drop n buf.

(** What a receive leaves in the caller's buffer: the bytes delivered, at the
    front, the rest of the buffer as it was. *)
Definition buf_write (data buf : list Z) : list Z :=
  take (length buf) (data ++ drop (length data) buf).

(** ** The transport adapter: types *)

Definition Socket_t := Z.

Record PlaintextTransportParams_t := { socket : Socket_t }.

(** [struct NetworkContext { PlaintextTransportParams_t * pParams; }] *)
Record NetworkContext_t := { pParams : option PlaintextTransportParams_t }.

(** Modelled from the spec: the enumeration [PlaintextTransportStatus_t] is
    declared in using_plaintext_udp.h, which is not among the sources; the
    three members are the ones the code names and the specification lists
    (success / invalid-parameter / connect-failure). *)
Inductive PlaintextTransportStatus_t :=
| PLAINTEXT_TRANSPORT_SUCCESS
| PLAINTEXT_TRANSPORT_INVALID_PARAMETER
| PLAINTEXT_TRANSPORT_CONNECT_FAILURE.

(** ** The sockets wrapper library (external) *)

(** One entry per call into the library, with the arguments of the call.  For
    a buffer argument the entry holds the bytes the pointer designates at the
    time of the call. *)
Inductive SockCall :=
| CallConnect (old : Socket_t) (host : string) (port rto sto : Z)
| CallDisconnect (s : Socket_t)
| CallSend (s : Socket_t) (payload : list Z) (n : Z)
| CallRecv (s : Socket_t) (buf : list Z) (n : Z).

(** Chronological: the oldest call first. *)
Definition World := list SockCall.

Record SocketsLib := {
  SOCKETS_INVALID_SOCKET : Socket_t;
  (** status and the handle stored through the [Socket_t *] argument *)
  Sockets_Udp_Connect : World -> Socket_t -> string -> Z -> Z -> Z -> Z * Socket_t;
  (** number of bytes sent, or a negative error code *)
  Sockets_Send : World -> Socket_t -> list Z -> Z -> Z;
  (** number of bytes received (or an error code) and the bytes delivered *)
  Sockets_Recv : World -> Socket_t -> list Z -> Z -> Z * list Z
}.

Definition is_send (e : SockCall) : bool :=
  match e with CallSend _ _ _ => true | _ => false end.

Definition is_recv (e : SockCall) : bool :=
  match e with CallRecv _ _ _ => true | _ => false end.

Definition is_recv_of (n : Z) (e : SockCall) : bool :=
  match e with CallRecv _ _ m => m =? n | _ => false end.

Definition is_send_of (n : Z) (e : SockCall) : bool :=
  match e with CallSend _ _ m => m =? n | _ => false end.

Definition count_calls (p : SockCall -> bool) (w : World) : nat :=
  length (List.filter p w).

Definition send_sizes (w : World) : list Z :=
  omap (fun e => match e with CallSend _ _ n => Some n | _ => None end) w.

(** The payload of the most recent send in the history. *)
Definition last_sent (w : World) : list Z :=
  default [] (last (omap (fun e => match e with
                                   | CallSend _ p _ => Some p
                                   | _ => None
                                   end) w)).

(** The buffers seen by the receive attempts that directly follow a send: the
    first attempt of each round of the echo loop. *)
Fixpoint first_attempts (w : World) : list (list Z) :=
  match w with
  | [] => []
  | e :: w' =>
      match e, w' with
      | CallSend _ _ _, CallRecv _ buf _ :: _ => buf :: first_attempts w'
      | _, _ => first_attempts w'
      end
  end.

Definition all_zero (buf : list Z) : Prop := Forall (fun b => b = 0) buf.

Definition recv_buf_zeroed (e : SockCall) : Prop :=
  match e with CallRecv _ buf _ => all_zero buf | _ => True end.

(** ** The transport adapter: operations *)

Section Transport.

Variable lib : SocketsLib.

(** [pNetworkContext->pParams], NULL when either pointer is. *)
Definition ctx_params (pNetworkContext : option NetworkContext_t)
  : option PlaintextTransportParams_t :=
  match pNetworkContext with
  | None => None
  | Some ctx => pParams ctx
  end.

Definition Plaintext_FreeRTOS_UDP_Connect
    (pNetworkContext : option NetworkContext_t) (pHostName : option string)
    (port receiveTimeoutMs sendTimeoutMs : Z) (w : World)
  : PlaintextTransportStatus_t * option NetworkContext_t * World :=
  match ctx_params pNetworkContext, pHostName with
  | Some pPlaintextTransportParams, Some host =>
      let '(socketStatus, sock) :=
        Sockets_Udp_Connect lib w (socket pPlaintextTransportParams)
                            host port receiveTimeoutMs sendTimeoutMs in
      let w' := w ++ [CallConnect (socket pPlaintextTransportParams)
                                  host port receiveTimeoutMs sendTimeoutMs] in
      let ctx' := Some {| pParams := Some {| socket := sock |} |} in
      if negb (socketStatus =? 0)
      then (PLAINTEXT_TRANSPORT_CONNECT_FAILURE, ctx', w')
      else (PLAINTEXT_TRANSPORT_SUCCESS, ctx', w')
  | _, _ => (PLAINTEXT_TRANSPORT_INVALID_PARAMETER, pNetworkContext, w)
  end.

Definition Plaintext_FreeRTOS_UDP_Disconnect
    (pNetworkContext : option NetworkContext_t) (w : World)
  : PlaintextTransportStatus_t * World :=
  match ctx_params pNetworkContext with
  | None => (PLAINTEXT_TRANSPORT_INVALID_PARAMETER, w)
  | Some pPlaintextTransportParams =>
      if socket pPlaintextTransportParams =? SOCKETS_INVALID_SOCKET lib
      then (PLAINTEXT_TRANSPORT_INVALID_PARAMETER, w)
      else (PLAINTEXT_TRANSPORT_SUCCESS,
            w ++ [CallDisconnect (socket pPlaintextTransportParams)])
  end.

Definition Plaintext_FreeRTOS_recvFrom
    (pNetworkContext : option NetworkContext_t) (pBuffer : option (list Z))
    (bytesToRecv : Z) (w : World)
  : Z * option (list Z) * World :=
  match ctx_params pNetworkContext with
  | None => (-1, pBuffer, w)
  | Some pPlaintextTransportParams =>
      match pBuffer with
      | None => (-1, pBuffer, w)
      | Some buf =>
          if bytesToRecv =? 0 then (-1, pBuffer, w)
          else
            let '(socketStatus, data) :=
              Sockets_Recv lib w (socket pPlaintextTransportParams)
                           buf bytesToRecv in
            (socketStatus,
             Some (buf_write (take (Z.to_nat bytesToRecv) data) buf),
             w ++ [CallRecv (socket pPlaintextTransportParams) buf bytesToRecv])
      end
  end.

Definition Plaintext_FreeRTOS_sendTo
    (pNetworkContext : option NetworkContext_t) (pBuffer : option (list Z))
    (bytesToSend : Z) (w : World)
  : Z * World :=
  match ctx_params pNetworkContext with
  | None => (-1, w)
  | Some pPlaintextTransportParams =>
      match pBuffer with
      | None => (-1, w)
      | Some buf =>
          if bytesToSend =? 0 then (-1, w)
          else
            let payload := take (Z.to_nat bytesToSend) buf in
            (Sockets_Send lib w (socket pPlaintextTransportParams)
                          payload bytesToSend,
             w ++ [CallSend (socket pPlaintextTransportParams)
                            payload bytesToSend])
      end
  end.

End Transport.

(** ** The echo task: configuration and state *)

Definition ECHO_SERVER_ENDPOINT : string := "PLACE_HOLDER".
Definition ECHO_SERVER_PORT : Z := 9000.
Definition ECHO_SEND_RECV_TIMEOUT_MS : Z := 5000.
Definition ECHO_MAX_RETRY_COUNT : Z := 10.

(** [echoTestBuffer_t]; both arrays have [ECHO_BUFFER_MAX_SIZE] bytes. *)
Record echoTestBuffer_t := { sendBuf : list Z; recvBuf : list Z }.

(** The global [xEchoTestBuffer] and the history of library calls. *)
Record EchoState := { xEchoTestBuffer : echoTestBuffer_t; world : World }.

(** Result of a loop whose number of iterations the C code leaves to its
    arguments: a value, fuel exhausted, or a store outside the array (which C
    leaves undefined). *)
Inductive outcome (A : Type) :=
| Ret (a : A)
| OutOfFuel
| OutOfBounds.

Arguments Ret {A} a.
Arguments OutOfFuel {A}.
Arguments OutOfBounds {A}.

(** What one round of the send/receive loop decides: leave the loop with a
    result, go on with a size and a failure count, or neither because the
    fuel ran out inside [prvRecvPackets]. *)
Inductive step :=
| Break (result : bool)
| Next (size failCount : Z)
| Stuck.

(** The bytes 0,1,...,255,0,1,... *)
Definition test_pattern (n : Z) : list Z := to_uint8 <$> seqZ 0 n.

(** ** The echo task: operations *)

(** [for (i = 0U; i < testSize; i++) pTransportTestBuffer[i] = (uint8_t) i;]
    with [uint32_t i]. *)
Fixpoint prvInitializeTestData_loop (fuel : nat) (pTransportTestBuffer : list Z)
    (testSize i : Z) : outcome (list Z) :=
  match fuel with
  | O => OutOfFuel
  | S fuel' =>
      if i <? testSize then
        if (Z.to_nat i <? length pTransportTestBuffer)%nat then
          prvInitializeTestData_loop fuel'
            (<[Z.to_nat i := to_uint8 i]> pTransportTestBuffer)
            testSize (to_uint32 (i + 1))
        else OutOfBounds
      else Ret pTransportTestBuffer
  end.

Definition prvInitializeTestData (fuel : nat) (pTransportTestBuffer : list Z)
    (testSize : Z) : outcome (list Z) :=
  prvInitializeTestData_loop fuel pTransportTestBuffer testSize 0.

Section Echo.

Variable lib : SocketsLib.

(** [CELLULAR_MAX_SEND_DATA_LEN] of the cellular configuration, which is
    not among the sources. *)
Variable ECHO_BUFFER_MAX_SIZE : Z.

Definition prvTransportNetworkConnect
    (pNetworkContext : option NetworkContext_t) (w : World)
  : bool * option NetworkContext_t * World :=
  let '(xPlaintextStatus, ctx, w') :=
    Plaintext_FreeRTOS_UDP_Connect lib pNetworkContext
      (Some ECHO_SERVER_ENDPOINT) ECHO_SERVER_PORT
      ECHO_SEND_RECV_TIMEOUT_MS ECHO_SEND_RECV_TIMEOUT_MS w in
  match xPlaintextStatus with
  | PLAINTEXT_TRANSPORT_SUCCESS => (true, ctx, w')
  | _ => (false, ctx, w')
  end.

Definition prvTransportNetworkDisconnect
    (pNetworkContext : option NetworkContext_t) (w : World) : World :=
  snd (Plaintext_FreeRTOS_UDP_Disconnect lib pNetworkContext w).

(** [size] is a [size_t]; [sentByte == size] converts the [int32_t]. *)
Definition prvSendPackets (pNetworkContext : option NetworkContext_t)
    (pBuf : list Z) (size : Z) (w : World) : bool * World :=
  let '(sentByte, w') :=
    Plaintext_FreeRTOS_sendTo lib pNetworkContext (Some pBuf) size w in
  (to_size_t sentByte =? size, w').

(** [do { recvByte = recvFrom(...); if (recvByte == size) { result = true;
    break; } } while (recvByte > 0);] with [int32_t size]. *)
Fixpoint prvRecvPackets (fuel : nat) (pNetworkContext : option NetworkContext_t)
    (pBuf : list Z) (size : Z) (w : World) : option bool * list Z * World :=
  match fuel with
  | O => (None, pBuf, w)
  | S fuel' =>
      let '(recvByte, pBuf', w') :=
        Plaintext_FreeRTOS_recvFrom lib pNetworkContext (Some pBuf)
                                    (to_size_t size) w in
      let pBuf' := default pBuf pBuf' in
      if recvByte =? size then (Some true, pBuf', w')
      else if 0 <? recvByte
           then prvRecvPackets fuel' pNetworkContext pBuf' size w'
           else (Some false, pBuf', w')
  end.

(** The body of the [for] loop of [prvLoopSendAndReceive].  A [break]
    leaves the loop before the [memset] at the end of the body. *)
Definition loop_body (fuel : nat) (pNetworkContext : option NetworkContext_t)
    (size failCount : Z) (st : EchoState) : step * EchoState :=
  let buffers := xEchoTestBuffer st in
  let '(sendResult, w1) :=
    prvSendPackets pNetworkContext (sendBuf buffers) (to_size_t size)
                   (world st) in
  if negb sendResult
  then (Break false, {| xEchoTestBuffer := buffers; world := w1 |})
  else
    let '(recvResult, rb, w2) :=
      prvRecvPackets fuel pNetworkContext (recvBuf buffers) size w1 in
    let received := {| sendBuf := sendBuf buffers; recvBuf := rb |} in
    let cleared :=
      {| sendBuf := sendBuf buffers;
         recvBuf := memset rb 0 (Z.to_nat ECHO_BUFFER_MAX_SIZE) |} in
    match recvResult with
    | None => (Stuck, {| xEchoTestBuffer := received; world := w2 |})
    | Some false =>
        let failCount' := to_uint16 (failCount + 1) in
        if ECHO_MAX_RETRY_COUNT <? failCount'
        then (Break false, {| xEchoTestBuffer := received; world := w2 |})
        else (Next size failCount',
              {| xEchoTestBuffer := cleared; world := w2 |})
    | Some true =>
        if memcmp (sendBuf buffers) rb (Z.to_nat (to_size_t size)) =? 0
        then (Next (size + 1) 0,
              {| xEchoTestBuffer := cleared; world := w2 |})
        else (Break false, {| xEchoTestBuffer := received; world := w2 |})
    end.

(** [for (size = ...; size <= ECHO_BUFFER_MAX_SIZE; ) body] *)
Fixpoint loop (fuel : nat) (pNetworkContext : option NetworkContext_t)
    (size failCount : Z) (st : EchoState) : option bool * EchoState :=
  match fuel with
  | O => (None, st)
  | S fuel' =>
      if size <=? ECHO_BUFFER_MAX_SIZE then
        match loop_body fuel' pNetworkContext size failCount st with
        | (Break result, st') => (Some result, st')
        | (Next size' failCount', st') =>
            loop fuel' pNetworkContext size' failCount' st'
        | (Stuck, st') => (None, st')
        end
      else (Some true, st)
  end.

Definition prvLoopSendAndReceive (fuel : nat)
    (pNetworkContext : option NetworkContext_t) (st : EchoState)
  : option bool * EchoState :=
  loop fuel pNetworkContext 10 0 st.

(** The task body.  The result is the final [status] and the state reached;
    the status is [None] when the fuel ran out on the way (or when an
    initialisation did not return because the array is shorter than
    [ECHO_BUFFER_MAX_SIZE]), and then the task has not come to its
    disconnect. *)
Definition RunEchoTask (fuel : nat) (st : EchoState) : option bool * EchoState :=
  let xPlaintextTransportParam := {| socket := 0 |} in
  let xNetworkContext := {| pParams := Some xPlaintextTransportParam |} in
  match prvInitializeTestData fuel (sendBuf (xEchoTestBuffer st))
                              ECHO_BUFFER_MAX_SIZE with
  | Ret sb =>
      match prvInitializeTestData fuel (recvBuf (xEchoTestBuffer st))
                                  ECHO_BUFFER_MAX_SIZE with
      | Ret rb =>
          let '(status, ctx, w1) :=
            prvTransportNetworkConnect (Some xNetworkContext) (world st) in
          let st1 := {| xEchoTestBuffer := {| sendBuf := sb; recvBuf := rb |};
                        world := w1 |} in
          let '(status, st2) :=
            if status then prvLoopSendAndReceive fuel ctx st1
            else (Some false, st1) in
          match status with
          | None => (None, st2)
          | Some _ =>
              (status,
               {| xEchoTestBuffer := xEchoTestBuffer st2;
                  world := prvTransportNetworkDisconnect ctx (world st2) |})
          end
      | _ => (None, st)
      end
  | _ => (None, st)
  end.

End Echo.

(** The events of one round: nothing (the send was rejected), or a send of
    the first [size] bytes of the send buffer followed by receive attempts,
    the first of them on the receive buffer as the round found it. *)
Definition round_events (st : EchoState) (size : Z) (evs : list SockCall) : Prop :=
  evs = []
  \/ exists sock recvs,
      evs = CallSend sock (take (Z.to_nat size) (sendBuf (xEchoTestBuffer st)))
                     size :: recvs
      /\ Forall (fun e => is_recv_of size e = true) recvs
      /\ (recvs = []
          \/ exists rest,
              recvs = CallRecv sock (recvBuf (xEchoTestBuffer st)) size :: rest).

(** A send call transmits a prefix of [buf]. *)
Definition sends_from (buf : list Z) (e : SockCall) : Prop :=
  match e with
  | CallSend _ payload n => payload = take (Z.to_nat n) buf
  | _ => True
  end.

(** Of the buffers seen by first attempts, the first is [first] and every
    later one consists of [n] zero bytes. *)
Definition zeroed_after_first (first : list Z) (n : nat)
    (bufs : list (list Z)) : Prop :=
  match bufs with
  | [] => True
  | b :: bs => b = first /\ Forall (fun b' => b' = replicate n 0) bs
  end.

(** Assumptions on the network that some properties need. *)

(** Every send transmits all the bytes it was given. *)
Definition sends_succeed (lib : SocketsLib) : Prop :=
  forall w s payload n, Sockets_Send lib w s payload n = n.

(** Every receive delivers as many bytes as requested, and they are the bytes
    of the datagram last sent. *)
Definition recvs_echo (lib : SocketsLib) : Prop :=
  forall w s buf n,
    (Sockets_Recv lib w s buf n).1 = n
    /\ take (Z.to_nat n) (Sockets_Recv lib w s buf n).2
       = take (Z.to_nat n) (last_sent w).

(** A receive delivers a whole datagram or nothing: it returns the count
    requested, zero, or a negative error code. *)
Definition no_partial_recv (lib : SocketsLib) : Prop :=
  forall w s buf n,
    (Sockets_Recv lib w s buf n).1 = n \/ (Sockets_Recv lib w s buf n).1 <= 0.

(** The values the library returned for the receive calls of a history [w]
    that started after [past]. *)
Fixpoint recv_returns (lib : SocketsLib) (past w : World) : list Z :=
  match w with
  | [] => []
  | e :: w' =>
      match e with
      | CallRecv s buf n =>
          (Sockets_Recv lib past s buf n).1 :: recv_returns lib (past ++ [e]) w'
      | _ => recv_returns lib (past ++ [e]) w'
      end
  end.

(** ** Concrete sockets libraries and inputs *)

Definition mk_lib (send : World -> list Z -> Z -> Z)
    (recv : World -> list Z -> Z -> Z * list Z) : SocketsLib :=
  {| SOCKETS_INVALID_SOCKET := 2 ^ 32 - 1;
     Sockets_Udp_Connect := fun _ _ _ _ _ _ => (0, 1);
     Sockets_Send := fun w _ payload n => send w payload n;
     Sockets_Recv := fun w _ buf n => recv w buf n |}.

(** Every send goes out; the server answers with the datagram last sent. *)
Definition echo_lib : SocketsLib :=
  mk_lib (fun _ _ n => n) (fun w _ n => (n, last_sent w)).

(** Every send goes out; no datagram ever comes back. *)
Definition lossy_lib : SocketsLib :=
  mk_lib (fun _ _ n => n) (fun _ _ _ => (0, [])).

(** Every send goes out; each receive delivers a single byte. *)
Definition trickle_lib : SocketsLib :=
  mk_lib (fun _ _ n => n) (fun _ _ _ => (1, [0])).

(** Every send goes out; the first receive after a send delivers five bytes,
    the following one nothing. *)
Definition short_then_none_lib : SocketsLib :=
  mk_lib (fun _ _ n => n)
         (fun w _ _ => match last w with
                       | Some (CallSend _ p _) => (5, take 5 p)
                       | _ => (0, [])
                       end).

(** Sends report [r]. *)
Definition const_send_lib (r : Z) : SocketsLib :=
  mk_lib (fun _ _ _ => r) (fun _ _ _ => (0, [])).

(** [CELLULAR_MAX_SEND_DATA_LEN] as the cellular library sets it by default. *)
Definition default_max_size : Z := 1460.

Definition zero_buffers (n : Z) : echoTestBuffer_t :=
  {| sendBuf := replicate (Z.to_nat n) 0; recvBuf := replicate (Z.to_nat n) 0 |}.

Definition boot_state (n : Z) : EchoState :=
  {| xEchoTestBuffer := zero_buffers n; world := [] |}.

Definition connected_ctx : option NetworkContext_t :=
  Some {| pParams := Some {| socket := 1 |} |}.

Definition pattern_state (n : Z) : EchoState :=
  {| xEchoTestBuffer := {| sendBuf := test_pattern n; recvBuf := test_pattern n |};
     world := [] |}.

(** Every send goes out; each receive delivers the requested number of
    bytes, all of them 255. *)
Definition garble_lib : SocketsLib :=
  mk_lib (fun _ _ n => n) (fun _ _ n => (n, replicate (Z.to_nat n) 255)).

(** The connect is refused and leaves the invalid-socket sentinel. *)
Definition refusing_lib : SocketsLib :=
  {| SOCKETS_INVALID_SOCKET := 2 ^ 32 - 1;
     Sockets_Udp_Connect := fun _ _ _ _ _ _ => (-1, 2 ^ 32 - 1);
     Sockets_Send := fun _ _ _ n => n;
     Sockets_Recv := fun _ _ _ _ => (0, []) |}.

(** ** More assumptions on the network *)

(** No datagram ever comes back: every receive returns zero or an error. *)
Definition recvs_lost (lib : SocketsLib) : Prop :=
  forall w s buf n, (Sockets_Recv lib w s buf n).1 <= 0.

(** A return value after which [prvRecvPackets] receives again. *)
Definition retried (size r : Z) : Prop := 0 < r /\ r <> size.

(** In a history that so far has [cur] as the size of its latest send, every
    receive asks for the size of the latest send, and no call other than a
    send or a receive is made. *)
Fixpoint recvs_follow_send (cur : option Z) (w : World) : Prop :=
  match w with
  | [] => True
  | CallSend _ _ n :: w' => recvs_follow_send (Some n) w'
  | CallRecv _ _ n :: w' => cur = Some n /\ recvs_follow_send cur w'
  | _ :: _ => False
  end.

(** ** The transport test demo (TransportTestExample.c) *)

Module TransportTest.

(** Modelled from the spec: [TestHostInfo_t] and [NetworkConnectStatus_t] are
    declared in network_connection.h of the qualification-test framework, an
    external collaborator that is not among the sources; the fields and the
    members are the ones the code names. *)
Record TestHostInfo_t := { pHostName : option string; port : Z }.

Inductive NetworkConnectStatus_t :=
| NETWORK_CONNECT_SUCCESS
| NETWORK_CONNECT_FAILURE.

(** [pHostInfo] is dereferenced unchecked; [pNetworkCredentials] is not
    used. *)
Definition prvTransportNetworkConnect (lib : SocketsLib)
    (pNetworkContext : option NetworkContext_t) (pHostInfo : TestHostInfo_t)
    (w : World)
  : NetworkConnectStatus_t * option NetworkContext_t * World :=
  let '(xPlaintextStatus, ctx, w') :=
    Plaintext_FreeRTOS_UDP_Connect lib pNetworkContext
      (pHostName pHostInfo) (port pHostInfo) 5000 5000 w in
  match xPlaintextStatus with
  | PLAINTEXT_TRANSPORT_SUCCESS => (NETWORK_CONNECT_SUCCESS, ctx, w')
  | _ => (NETWORK_CONNECT_FAILURE, ctx, w')
  end.

Definition prvTransportNetworkDisconnect (lib : SocketsLib)
    (pNetworkContext : option NetworkContext_t) (w : World) : World :=
  snd (Plaintext_FreeRTOS_UDP_Disconnect lib pNetworkContext w).

End TransportTest.

(** * Properties *)

(** ** Machine integers and memory helpers *)

Lemma to_size_t_small z : 0 <= z < 2 ^ 32 -> to_size_t z = z.
Proof. intros H. unfold to_size_t. by rewrite Z.mod_small. Qed.

Lemma to_uint16_small z : 0 <= z < 2 ^ 16 -> to_uint16 z = z.
Proof. intros H. unfold to_uint16. by rewrite Z.mod_small. Qed.

Lemma to_uint32_small z : 0 <= z < 2 ^ 32 -> to_uint32 z = z.
Proof. intros H. unfold to_uint32. by rewrite Z.mod_small. Qed.

Lemma length_buf_write data buf : length (buf_write data buf) = length buf.
Proof.
  unfold buf_write. rewrite length_take, length_app, length_drop. lia.
Qed.

Lemma length_memset buf c n : length (memset buf c n) = length buf.
Proof.
  unfold memset. rewrite length_app, length_replicate, length_drop. lia.
Qed.

Lemma memset_all buf c n :
  length buf = n -> memset buf c n = replicate n (to_uint8 c).
Proof.
  intros <-. unfold memset.
  rewrite Nat.min_id, drop_all. apply app_nil_r.
Qed.

Lemma memcmp_refl a n : memcmp a a n = 0.
Proof.
  revert a. induction n as [|n IH]; intros [|x a]; simpl; try done.
  by rewrite Z.eqb_refl.
Qed.

Lemma memcmp_zero_iff a b n :
  (n <= length a)%nat -> (n <= length b)%nat ->
  memcmp a b n = 0 <-> take n a = take n b.
Proof.
  revert a b. induction n as [|n IH]; intros a b Ha Hb.
  { by destruct a, b. }
  destruct a as [|x a]; [simpl in Ha; lia|].
  destruct b as [|y b]; [simpl in Hb; lia|].
  simpl in *. destruct (Z.eqb_spec x y) as [->|Hne].
  - rewrite IH by lia. split; [by intros ->|by intros [= ->]].
  - split; [lia|by intros [= ->]].
Qed.

(** ** The transport adapter *)

Section TransportFacts.

Variable lib : SocketsLib.

Lemma ctx_params_None ctx :
  ctx_params ctx = None <->
  ctx = None \/ exists c, ctx = Some c /\ pParams c = None.
Proof.
  destruct ctx as [c|]; simpl; [|naive_solver].
  split; [eauto|]. intros [|(c' & [= <-] & ?)]; done.
Qed.

(** C4.  [Plaintext_FreeRTOS_UDP_Connect] answers invalid-parameter exactly
    when the context, its parameter block or the host name is NULL;
    otherwise connect-failure exactly when [Sockets_Udp_Connect] reports a
    non-zero code, and success exactly when the code is zero. *)
Theorem connect_status_cases ctx host port rto sto w :
  let status := (Plaintext_FreeRTOS_UDP_Connect lib ctx host port rto sto w).1.1 in
  (status = PLAINTEXT_TRANSPORT_INVALID_PARAMETER <->
     ctx = None \/ (exists c, ctx = Some c /\ pParams c = None) \/ host = None)
  /\ (forall params name,
        ctx_params ctx = Some params -> host = Some name ->
        let code :=
          (Sockets_Udp_Connect lib w (socket params) name port rto sto).1 in
        (status = PLAINTEXT_TRANSPORT_CONNECT_FAILURE <-> code <> 0)
        /\ (status = PLAINTEXT_TRANSPORT_SUCCESS <-> code = 0)).
Proof.
  unfold Plaintext_FreeRTOS_UDP_Connect.
  pose proof (ctx_params_None ctx) as Hnull. split.
  - destruct (ctx_params ctx) as [p|], host as [h|]; simpl;
      try (split; [intros _|done]; tauto).
    destruct (Sockets_Udp_Connect _ _ _ _ _ _ _) as [code sock].
    destruct (code =? 0); simpl; split; try done.
    all: intros [?|[?|?]]; [| |done].
    all: assert (Some p = None) by (apply Hnull; tauto); done.
  - intros params name -> ->.
    destruct (Sockets_Udp_Connect _ _ _ _ _ _ _) as [code sock]; simpl.
    destruct (Z.eqb_spec code 0); simpl; split; split; done.
Qed.

(** C7.  [Plaintext_FreeRTOS_UDP_Disconnect] answers invalid-parameter
    exactly when the context is NULL, its parameter block is NULL, or the
    stored socket is [SOCKETS_INVALID_SOCKET], and then makes no library
    call; in every other case it calls [Sockets_Disconnect] on the stored
    socket and answers success. *)
Theorem disconnect_status_cases ctx w :
  let r := Plaintext_FreeRTOS_UDP_Disconnect lib ctx w in
  (r.1 = PLAINTEXT_TRANSPORT_INVALID_PARAMETER <->
     ctx = None \/ (exists c, ctx = Some c /\ pParams c = None)
     \/ (exists p, ctx_params ctx = Some p
                   /\ socket p = SOCKETS_INVALID_SOCKET lib))
  /\ (r.1 = PLAINTEXT_TRANSPORT_INVALID_PARAMETER -> r.2 = w)
  /\ (r.1 <> PLAINTEXT_TRANSPORT_INVALID_PARAMETER ->
      exists p, ctx_params ctx = Some p
                /\ r = (PLAINTEXT_TRANSPORT_SUCCESS,
                        w ++ [CallDisconnect (socket p)])).
Proof.
  unfold Plaintext_FreeRTOS_UDP_Disconnect.
  pose proof (ctx_params_None ctx) as Hnull.
  destruct (ctx_params ctx) as [p|]; simpl.
  - destruct (Z.eqb_spec (socket p) (SOCKETS_INVALID_SOCKET lib)); simpl.
    + split_and!; [split; eauto | done | done].
    + split_and!; [split; [done|] | done | eauto].
      intros [?|[?|(p' & [= <-] & ?)]]; [| |done].
      all: assert (Some p = None) by (apply Hnull; tauto); done.
  - split_and!; [split; [intros _; tauto|done] | done | done].
Qed.

(** C3, as the code has it.  [Plaintext_FreeRTOS_sendTo] and
    [Plaintext_FreeRTOS_recvFrom] return an [int32_t]: -1 when an argument
    is rejected, otherwise the return value of [Sockets_Send] or
    [Sockets_Recv] as it is, with no translation. *)
Theorem send_recv_return_raw ctx buf n w :
  (forall params b,
      ctx_params ctx = Some params -> buf = Some b -> n <> 0 ->
      (Plaintext_FreeRTOS_sendTo lib ctx buf n w).1
        = Sockets_Send lib w (socket params) (take (Z.to_nat n) b) n
      /\ (Plaintext_FreeRTOS_recvFrom lib ctx buf n w).1.1
        = (Sockets_Recv lib w (socket params) b n).1)
  /\ (ctx_params ctx = None \/ buf = None \/ n = 0 ->
      (Plaintext_FreeRTOS_sendTo lib ctx buf n w).1 = -1
      /\ (Plaintext_FreeRTOS_recvFrom lib ctx buf n w).1.1 = -1).
Proof.
  unfold Plaintext_FreeRTOS_sendTo, Plaintext_FreeRTOS_recvFrom. split.
  - intros params b -> -> Hn.
    destruct (Z.eqb_spec n 0); [done|].
    by destruct (Sockets_Recv _ _ _ _ _).
  - intros H. destruct (ctx_params ctx) as [p|]; [|done].
    destruct buf as [b|]; [|done].
    destruct (Z.eqb_spec n 0); [done|]. by destruct H as [?|[?|?]].
Qed.

(** C9.  When an argument is rejected (NULL context, NULL parameter block,
    NULL host name or buffer, zero length), each of the four operations
    returns its error value, makes no call into the sockets library, and
    leaves the context (and the caller's buffer) as it was. *)
Theorem rejected_arguments_no_effect ctx w :
  (forall host port rto sto,
      ctx_params ctx = None \/ host = None ->
      Plaintext_FreeRTOS_UDP_Connect lib ctx host port rto sto w
      = (PLAINTEXT_TRANSPORT_INVALID_PARAMETER, ctx, w))
  /\ (ctx_params ctx = None ->
      Plaintext_FreeRTOS_UDP_Disconnect lib ctx w
      = (PLAINTEXT_TRANSPORT_INVALID_PARAMETER, w))
  /\ (forall buf n,
      ctx_params ctx = None \/ buf = None \/ n = 0 ->
      Plaintext_FreeRTOS_sendTo lib ctx buf n w = (-1, w))
  /\ (forall buf n,
      ctx_params ctx = None \/ buf = None \/ n = 0 ->
      Plaintext_FreeRTOS_recvFrom lib ctx buf n w = (-1, buf, w)).
Proof.
  unfold Plaintext_FreeRTOS_UDP_Connect, Plaintext_FreeRTOS_UDP_Disconnect,
    Plaintext_FreeRTOS_sendTo, Plaintext_FreeRTOS_recvFrom.
  split_and!.
  - intros host port rto sto H.
    destruct (ctx_params ctx) as [p|]; [|done].
    destruct host; [by destruct H|done].
  - by intros ->.
  - intros buf n H. destruct (ctx_params ctx) as [p|]; [|done].
    destruct buf as [b|]; [|done].
    destruct (Z.eqb_spec n 0); [done|by destruct H as [?|[?|?]]].
  - intros buf n H. destruct (ctx_params ctx) as [p|]; [|done].
    destruct buf as [b|]; [|done].
    destruct (Z.eqb_spec n 0); [done|by destruct H as [?|[?|?]]].
Qed.

End TransportFacts.

(** ** The test data *)

Lemma lookup_test_pattern n (i : nat) :
  Z.of_nat i < n -> test_pattern n !! i = Some (Z.of_nat i mod 256).
Proof.
  intros Hi. unfold test_pattern.
  rewrite list_lookup_fmap, lookup_seqZ_lt by done. done.
Qed.

Lemma length_test_pattern n : length (test_pattern n) = Z.to_nat n.
Proof. unfold test_pattern. by rewrite length_fmap, length_seqZ. Qed.

(** The loop from index [i] on: it ends within [testSize - i + 1] steps, has
    written [i, testSize) and nothing else. *)
Lemma prvInitializeTestData_loop_spec fuel : forall buf testSize i,
  0 <= i <= testSize -> testSize < 2 ^ 32 ->
  testSize <= Z.of_nat (length buf) ->
  (Z.to_nat (testSize - i) < fuel)%nat ->
  exists buf',
    prvInitializeTestData_loop fuel buf testSize i = Ret buf'
    /\ length buf' = length buf
    /\ (forall j : nat, i <= Z.of_nat j < testSize ->
                        buf' !! j = Some (Z.of_nat j mod 256))
    /\ (forall j : nat, Z.of_nat j < i \/ testSize <= Z.of_nat j ->
                        buf' !! j = buf !! j).
Proof.
  induction fuel as [|fuel IH]; intros buf testSize i Hi Hsz Hlen Hfuel; [lia|].
  simpl. destruct (Z.ltb_spec i testSize) as [Hlt|Hge].
  - destruct (Nat.ltb_spec (Z.to_nat i) (length buf)) as [Hin|Hout]; [|lia].
    rewrite to_uint32_small by lia.
    destruct (IH (<[Z.to_nat i := to_uint8 i]> buf) testSize (i + 1))
      as (buf' & Hrun & Hl & Hnew & Hold);
      [lia | done | rewrite length_insert; lia | lia |].
    exists buf'. rewrite length_insert in Hl. split_and!; [done..| |].
    + intros j Hj. destruct (decide (Z.of_nat j = i)) as [<-|Hne].
      * rewrite Hold by lia. rewrite Nat2Z.id.
        by rewrite list_lookup_insert_eq by lia.
      * apply Hnew. lia.
    + intros j Hj. rewrite Hold by lia.
      apply list_lookup_insert_ne. lia.
  - exists buf. split_and!; [done..|lia|done].
Qed.

(** C8.  [prvInitializeTestData] terminates and fills the buffer
    deterministically: byte [i] is [i mod 256] for every [i < testSize], and
    the bytes from [testSize] on are unchanged.  ([testSize] is a 32-bit
    [size_t] not larger than the array the pointer designates.) *)
Theorem prvInitializeTestData_spec fuel buf testSize :
  0 <= testSize < 2 ^ 32 ->
  testSize <= Z.of_nat (length buf) ->
  (Z.to_nat testSize < fuel)%nat ->
  exists buf',
    prvInitializeTestData fuel buf testSize = Ret buf'
    /\ length buf' = length buf
    /\ (forall i : nat, Z.of_nat i < testSize ->
                        buf' !! i = Some (Z.of_nat i mod 256))
    /\ (forall i : nat, testSize <= Z.of_nat i -> buf' !! i = buf !! i).
Proof.
  intros Hsz Hlen Hfuel. unfold prvInitializeTestData.
  destruct (prvInitializeTestData_loop_spec fuel buf testSize 0)
    as (buf' & Hrun & Hl & Hnew & Hold); [lia | lia | done | |].
  { by rewrite Z.sub_0_r. }
  exists buf'. split_and!; [done..| |].
  - intros i Hi. apply Hnew. lia.
  - intros i Hi. apply Hold. lia.
Qed.

(** On an array of exactly [n] bytes the result is the test pattern. *)
Lemma prvInitializeTestData_full fuel buf n :
  0 <= n < 2 ^ 32 -> length buf = Z.to_nat n -> (Z.to_nat n < fuel)%nat ->
  prvInitializeTestData fuel buf n = Ret (test_pattern n).
Proof.
  intros Hn Hlen Hfuel. unfold prvInitializeTestData.
  destruct (prvInitializeTestData_loop_spec fuel buf n 0)
    as (buf' & -> & Hl & Hnew & _); [lia..|rewrite Z.sub_0_r; lia|].
  f_equal. apply list_eq. intros i.
  destruct (decide (Z.of_nat i < n)) as [Hi|Hi].
  - by rewrite Hnew, lookup_test_pattern by lia.
  - rewrite !lookup_ge_None_2; [done| |].
    + rewrite length_test_pattern. lia.
    + lia.
Qed.

Lemma prvInitializeTestData_loop_mono fuel : forall buf testSize i buf' k,
  prvInitializeTestData_loop fuel buf testSize i = Ret buf' ->
  prvInitializeTestData_loop (fuel + k) buf testSize i = Ret buf'.
Proof.
  induction fuel as [|fuel IH]; intros buf testSize i buf' k; [done|].
  simpl. destruct (i <? testSize); [|done].
  destruct (_ <? _)%nat; [apply IH|done].
Qed.

(** Whenever the initialisation of a whole array returns, the array holds the
    test pattern. *)
Lemma prvInitializeTestData_Ret fuel buf n buf' :
  0 <= n < 2 ^ 32 -> length buf = Z.to_nat n ->
  prvInitializeTestData fuel buf n = Ret buf' -> buf' = test_pattern n.
Proof.
  intros Hn Hlen Hrun.
  apply (prvInitializeTestData_loop_mono _ _ _ _ _ (S (Z.to_nat n))) in Hrun.
  unfold prvInitializeTestData in *.
  pose proof (prvInitializeTestData_full (fuel + S (Z.to_nat n)) buf n Hn Hlen)
    as Hfull.
  unfold prvInitializeTestData in Hfull. rewrite Hfull in Hrun by lia.
  congruence.
Qed.

(** ** Reading the history *)

Lemma first_attempts_recvs recvs w :
  Forall (fun e => is_recv e = true) recvs ->
  first_attempts (recvs ++ w) = first_attempts w.
Proof.
  induction 1 as [|e recvs He _ IH]; [done|]. by destruct e.
Qed.

Lemma first_attempts_send_recv s p n s' buf n' w :
  first_attempts (CallSend s p n :: CallRecv s' buf n' :: w)
  = buf :: first_attempts w.
Proof. done. Qed.

Lemma first_attempts_snoc w e :
  is_recv e = false -> first_attempts (w ++ [e]) = first_attempts w.
Proof.
  intros He. induction w as [|e1 w IH]; [by destruct e|].
  destruct w as [|e2 w].
  - destruct e1, e; done.
  - change ((e1 :: e2 :: w) ++ [e]) with (e1 :: e2 :: (w ++ [e])).
    change ((e2 :: w) ++ [e]) with (e2 :: (w ++ [e])) in IH.
    destruct e1, e2; simpl in *; by rewrite ?IH.
Qed.

Lemma count_calls_app p w1 w2 :
  count_calls p (w1 ++ w2) = (count_calls p w1 + count_calls p w2)%nat.
Proof. unfold count_calls. by rewrite List.filter_app, length_app. Qed.

Lemma count_calls_cons p e w :
  count_calls p (e :: w)
  = ((if p e then 1 else 0) + count_calls p w)%nat.
Proof.
  unfold count_calls. simpl. by destruct (p e).
Qed.

Lemma send_sizes_app w1 w2 : send_sizes (w1 ++ w2) = send_sizes w1 ++ send_sizes w2.
Proof. apply omap_app. Qed.

Lemma send_sizes_recvs recvs :
  Forall (fun e => is_recv e = true) recvs -> send_sizes recvs = [].
Proof.
  induction 1 as [|e recvs He _ IH]; [done|]. by destruct e.
Qed.

Lemma last_sent_snoc_send w s p n : last_sent (w ++ [CallSend s p n]) = p.
Proof. unfold last_sent. rewrite omap_app. simpl. by rewrite last_snoc. Qed.

(** ** One round of the echo loop *)

Section EchoFacts.

Variable lib : SocketsLib.
Variable ECHO_BUFFER_MAX_SIZE : Z.

(** The arrays are static and the [int32_t size] of the loop must be able
    to hold [ECHO_BUFFER_MAX_SIZE + 1]. *)
Hypothesis MAX_range : 0 <= ECHO_BUFFER_MAX_SIZE < 2 ^ 31 - 1.

Lemma prvSendPackets_valid ctx p buf n w :
  ctx_params ctx = Some p -> n <> 0 ->
  prvSendPackets lib ctx buf n w
  = (to_size_t (Sockets_Send lib w (socket p) (take (Z.to_nat n) buf) n) =? n,
     w ++ [CallSend (socket p) (take (Z.to_nat n) buf) n]).
Proof.
  intros Hp Hn. unfold prvSendPackets, Plaintext_FreeRTOS_sendTo.
  rewrite Hp. by destruct (Z.eqb_spec n 0).
Qed.

Lemma prvSendPackets_null ctx buf n w :
  ctx_params ctx = None -> 0 <= n < 2 ^ 32 - 1 ->
  prvSendPackets lib ctx buf n w = (false, w).
Proof.
  intros Hp Hn. unfold prvSendPackets, Plaintext_FreeRTOS_sendTo.
  rewrite Hp. f_equal. apply Z.eqb_neq. unfold to_size_t.
  change (-1 mod 2 ^ 32) with (2 ^ 32 - 1). lia.
Qed.

(** One turn of the [do ... while] of [prvRecvPackets]. *)
Lemma prvRecvPackets_turn fuel ctx p buf size w :
  ctx_params ctx = Some p -> 0 < size < 2 ^ 32 ->
  prvRecvPackets lib (S fuel) ctx buf size w
  = let r := Sockets_Recv lib w (socket p) buf size in
    let buf' := buf_write (take (Z.to_nat size) r.2) buf in
    let w' := w ++ [CallRecv (socket p) buf size] in
    if r.1 =? size then (Some true, buf', w')
    else if 0 <? r.1 then prvRecvPackets lib fuel ctx buf' size w'
         else (Some false, buf', w').
Proof.
  intros Hp Hsize. simpl. unfold Plaintext_FreeRTOS_recvFrom.
  rewrite Hp, to_size_t_small by lia.
  destruct (Z.eqb_spec size 0); [lia|].
  by destruct (Sockets_Recv _ _ _ _ _) as [r data].
Qed.

(** What [prvRecvPackets] leaves behind: receive calls only, the first of
    them on the buffer as it was handed in. *)
Lemma prvRecvPackets_shape fuel : forall ctx p buf size w res buf' w',
  ctx_params ctx = Some p -> 0 < size < 2 ^ 32 ->
  prvRecvPackets lib fuel ctx buf size w = (res, buf', w') ->
  length buf' = length buf
  /\ exists recvs,
      w' = w ++ recvs
      /\ Forall (fun e => is_recv_of size e = true) recvs
      /\ (res <> None ->
          exists rest, recvs = CallRecv (socket p) buf size :: rest)
      /\ (recvs = [] \/ exists rest, recvs = CallRecv (socket p) buf size :: rest).
Proof.
  induction fuel as [|fuel IH]; intros ctx p buf size w res buf' w' Hp Hsize.
  { intros [= <- <- <-]. split; [done|]. exists [].
    rewrite app_nil_r. split_and!; [done|done|done|by left]. }
  rewrite (prvRecvPackets_turn _ _ p) by done. cbv zeta.
  set (b1 := buf_write _ buf). set (e := CallRecv (socket p) buf size).
  assert (is_recv_of size e = true) as He by apply Z.eqb_refl.
  assert (length b1 = length buf) as Hb1 by apply length_buf_write.
  destruct (_ =? size).
  { intros [= <- <- <-]. split; [done|]. exists [e].
    split_and!; [done|by constructor|eauto|eauto]. }
  destruct (0 <? _).
  - intros Hrun. apply (IH _ p) in Hrun as (Hl & recvs & -> & Hall & _ & _);
      [|done..].
    split; [congruence|]. exists (e :: recvs).
    rewrite <- app_assoc. split_and!; [done|by constructor|eauto|eauto].
  - intros [= <- <- <-]. split; [done|]. exists [e].
    split_and!; [done|by constructor|eauto|eauto].
Qed.

Lemma is_recv_of_is_recv n recvs :
  Forall (fun e => is_recv_of n e = true) recvs ->
  Forall (fun e => is_recv e = true) recvs.
Proof. intros H. eapply Forall_impl; [exact H|]. by intros []. Qed.

Lemma loop_body_shape fuel ctx size fc st s st' :
  0 < size <= ECHO_BUFFER_MAX_SIZE ->
  loop_body lib ECHO_BUFFER_MAX_SIZE fuel ctx size fc st = (s, st') ->
  sendBuf (xEchoTestBuffer st') = sendBuf (xEchoTestBuffer st)
  /\ length (recvBuf (xEchoTestBuffer st'))
     = length (recvBuf (xEchoTestBuffer st))
  /\ exists evs,
      world st' = world st ++ evs
      /\ round_events st size evs
      /\ forall size' fc',
          s = Next size' fc' ->
          (exists sock rest,
              evs = CallSend sock (take (Z.to_nat size)
                                        (sendBuf (xEchoTestBuffer st))) size
                      :: CallRecv sock (recvBuf (xEchoTestBuffer st)) size
                      :: rest)
          /\ (length (recvBuf (xEchoTestBuffer st))
               = Z.to_nat ECHO_BUFFER_MAX_SIZE ->
              recvBuf (xEchoTestBuffer st')
              = replicate (Z.to_nat ECHO_BUFFER_MAX_SIZE) 0)
          /\ (size' = size /\ fc' = to_uint16 (fc + 1)
                           /\ fc' <= ECHO_MAX_RETRY_COUNT
              \/ size' = size + 1 /\ fc' = 0).
Proof.
  intros Hsize. unfold loop_body.
  rewrite to_size_t_small by lia.
  destruct (ctx_params ctx) as [p|] eqn:Hp.
  2:{ rewrite prvSendPackets_null by (done || lia). simpl.
      intros [= <- <-]. simpl. split_and!; [done..|].
      exists []. rewrite app_nil_r. split_and!; [done|by left|done]. }
  rewrite (prvSendPackets_valid _ p) by (done || lia).
  set (e := CallSend _ _ _).
  destruct (_ =? size); simpl.
  2:{ intros [= <- <-]. simpl. split_and!; [done..|].
      exists [e]. split_and!; [done| |done].
      right. exists (socket p), []. split_and!; [done|constructor|by left]. }
  destruct (prvRecvPackets _ _ _ _ _ _) as [[res rb] w2] eqn:Hrecv.
  apply (prvRecvPackets_shape _ _ p) in Hrecv
      as (Hl & recvs & -> & Hall & Hfirst & Hhead); [|done|lia].
  rewrite <- app_assoc. simpl.
  assert (round_events st size (e :: recvs)) as Hround.
  { right. by exists (socket p), recvs. }
  assert (length (recvBuf (xEchoTestBuffer st))
          = Z.to_nat ECHO_BUFFER_MAX_SIZE ->
          memset rb 0 (Z.to_nat ECHO_BUFFER_MAX_SIZE)
          = replicate (Z.to_nat ECHO_BUFFER_MAX_SIZE) 0) as Hzero.
  { intros Hlen. apply memset_all. congruence. }
  destruct res as [[|]|].
  - destruct (memcmp _ _ _ =? 0); intros [= <- <-]; simpl.
    + rewrite length_memset. split_and!; [done..|].
      exists (e :: recvs). split_and!; [done..|].
      intros size' fc' [= <- <-].
      destruct Hfirst as [rest ->]; [done|].
      split_and!; [by exists (socket p), rest | by apply Hzero | by right].
    + split_and!; [done..|]. by exists (e :: recvs).
  - destruct (Z.ltb_spec ECHO_MAX_RETRY_COUNT (to_uint16 (fc + 1)));
      intros [= <- <-]; simpl.
    + split_and!; [done..|]. by exists (e :: recvs).
    + rewrite length_memset. split_and!; [done..|].
      exists (e :: recvs). split_and!; [done..|].
      intros size' fc' [= <- <-].
      destruct Hfirst as [rest ->]; [done|].
      split_and!; [by exists (socket p), rest | by apply Hzero | by left].
  - intros [= <- <-]; simpl. split_and!; [done..|]. by exists (e :: recvs).
Qed.

(** ** The whole loop *)

Lemma loop_first_attempts fuel : forall ctx size fc st,
  0 < size ->
  length (recvBuf (xEchoTestBuffer st)) = Z.to_nat ECHO_BUFFER_MAX_SIZE ->
  exists evs,
    world (loop lib ECHO_BUFFER_MAX_SIZE fuel ctx size fc st).2
    = world st ++ evs
    /\ zeroed_after_first (recvBuf (xEchoTestBuffer st))
                          (Z.to_nat ECHO_BUFFER_MAX_SIZE)
                          (first_attempts evs).
Proof.
  induction fuel as [|fuel IH]; intros ctx size fc st Hsize Hlen; simpl.
  { exists []. by rewrite app_nil_r. }
  destruct (Z.leb_spec size ECHO_BUFFER_MAX_SIZE) as [Hle|Hgt]; simpl.
  2:{ exists []. by rewrite app_nil_r. }
  destruct (loop_body _ _ _ _ _ _ _) as [s st'] eqn:Hbody.
  apply loop_body_shape in Hbody
      as (_ & Hl & evs & Hw & Hround & Hnext); [|lia].
  assert (zeroed_after_first (recvBuf (xEchoTestBuffer st))
            (Z.to_nat ECHO_BUFFER_MAX_SIZE) (first_attempts evs)) as Hone.
  { destruct Hround as [->|(sock & recvs & -> & Hall & [->|[rest ->]])];
      [done..|].
    rewrite first_attempts_send_recv.
    apply Forall_cons in Hall as [_ Hall].
    apply is_recv_of_is_recv in Hall.
    rewrite <- (app_nil_r rest), first_attempts_recvs by done. by split. }
  destruct s as [r|size' fc'|]; simpl; [by exists evs| |by exists evs].
  destruct (Hnext size' fc' eq_refl) as ((sock & rest & ->) & Hz & Hsz).
  destruct (IH ctx size' fc' st') as (evs1 & Hw1 & Hrest);
    [lia|congruence|].
  rewrite Hw1, Hw, <- app_assoc. eexists. split; [done|].
  destruct Hround as [|(? & recvs & [= <- <-] & Hall' & _)]; [done|].
  apply Forall_cons in Hall' as [_ Hall'].
  apply is_recv_of_is_recv in Hall'.
  change ((?a :: ?b :: rest) ++ evs1) with (a :: b :: (rest ++ evs1)).
  rewrite first_attempts_send_recv, first_attempts_recvs by done.
  split; [done|]. rewrite Hz in Hrest by done.
  destruct (first_attempts evs1) as [|b bs]; [done|].
  destruct Hrest as [-> Hbs]. by constructor.
Qed.

Lemma loop_frame fuel : forall ctx size fc st,
  0 < size ->
  sendBuf (xEchoTestBuffer (loop lib ECHO_BUFFER_MAX_SIZE fuel ctx size fc st).2)
  = sendBuf (xEchoTestBuffer st)
  /\ exists evs,
      world (loop lib ECHO_BUFFER_MAX_SIZE fuel ctx size fc st).2
      = world st ++ evs
      /\ Forall (sends_from (sendBuf (xEchoTestBuffer st))) evs.
Proof.
  induction fuel as [|fuel IH]; intros ctx size fc st Hsize; simpl.
  { split; [done|]. exists []. by rewrite app_nil_r. }
  destruct (Z.leb_spec size ECHO_BUFFER_MAX_SIZE) as [Hle|Hgt]; simpl.
  2:{ split; [done|]. exists []. by rewrite app_nil_r. }
  destruct (loop_body _ _ _ _ _ _ _) as [s st'] eqn:Hbody.
  apply loop_body_shape in Hbody
      as (Hsend & _ & evs & Hw & Hround & Hnext); [|lia].
  assert (Forall (sends_from (sendBuf (xEchoTestBuffer st))) evs) as Hone.
  { destruct Hround as [->|(sock & recvs & -> & Hall & _)]; [done|].
    constructor; [done|].
    eapply Forall_impl; [exact Hall|]. by intros []. }
  destruct s as [r|size' fc'|]; simpl; [by eauto| |by eauto].
  destruct (Hnext size' fc' eq_refl) as (_ & _ & Hsz).
  destruct (IH ctx size' fc' st') as (Hsend1 & evs1 & Hw1 & Hrest); [lia|].
  split; [congruence|]. exists (evs ++ evs1).
  rewrite Hw1, Hw, <- app_assoc. split; [done|].
  apply Forall_app. split; [done|]. by rewrite <- Hsend.
Qed.

(** *** A faithful echo server *)

Lemma take_buf_write data buf :
  (length data <= length buf)%nat ->
  take (length data) (buf_write data buf) = data.
Proof.
  intros Hle. unfold buf_write.
  rewrite take_take, Nat.min_l by done. by rewrite take_app_length.
Qed.

Lemma loop_body_echo fuel ctx p size fc st :
  sends_succeed lib -> recvs_echo lib ->
  ctx_params ctx = Some p ->
  0 < size <= ECHO_BUFFER_MAX_SIZE ->
  length (sendBuf (xEchoTestBuffer st)) = Z.to_nat ECHO_BUFFER_MAX_SIZE ->
  length (recvBuf (xEchoTestBuffer st)) = Z.to_nat ECHO_BUFFER_MAX_SIZE ->
  loop_body lib ECHO_BUFFER_MAX_SIZE (S fuel) ctx size fc st
  = (Next (size + 1) 0,
     {| xEchoTestBuffer :=
          {| sendBuf := sendBuf (xEchoTestBuffer st);
             recvBuf := replicate (Z.to_nat ECHO_BUFFER_MAX_SIZE) 0 |};
        world :=
          world st
          ++ [CallSend (socket p)
                       (take (Z.to_nat size) (sendBuf (xEchoTestBuffer st)))
                       size;
              CallRecv (socket p) (recvBuf (xEchoTestBuffer st)) size] |}).
Proof.
  intros Hsend Hecho Hp Hsize Hls Hlr. unfold loop_body.
  rewrite to_size_t_small by lia.
  rewrite (prvSendPackets_valid _ p) by (done || lia).
  rewrite Hsend, to_size_t_small, Z.eqb_refl by lia. simpl negb. cbv iota.
  rewrite (prvRecvPackets_turn _ _ p) by (done || lia). cbv zeta.
  destruct (Hecho (world st ++ [CallSend (socket p)
              (take (Z.to_nat size) (sendBuf (xEchoTestBuffer st))) size])
              (socket p) (recvBuf (xEchoTestBuffer st)) size) as [-> Hdata].
  rewrite Hdata, last_sent_snoc_send, Z.eqb_refl, take_take, Nat.min_id.
  set (payload := take (Z.to_nat size) (sendBuf (xEchoTestBuffer st))).
  assert (length payload = Z.to_nat size) as Hlp.
  { unfold payload. rewrite length_take. lia. }
  assert (memcmp (sendBuf (xEchoTestBuffer st))
                 (buf_write payload (recvBuf (xEchoTestBuffer st)))
                 (Z.to_nat size) = 0) as ->.
  { apply memcmp_zero_iff; [lia|rewrite length_buf_write; lia|].
    rewrite <- Hlp at 2. rewrite take_buf_write by lia. done. }
  rewrite memset_all by (rewrite length_buf_write; done).
  simpl. by rewrite <- app_assoc.
Qed.

Lemma loop_echo fuel ctx p : forall size fc st,
  sends_succeed lib -> recvs_echo lib ->
  ctx_params ctx = Some p ->
  0 < size ->
  length (sendBuf (xEchoTestBuffer st)) = Z.to_nat ECHO_BUFFER_MAX_SIZE ->
  length (recvBuf (xEchoTestBuffer st)) = Z.to_nat ECHO_BUFFER_MAX_SIZE ->
  (Z.to_nat (ECHO_BUFFER_MAX_SIZE + 1 - size) < fuel)%nat ->
  exists st',
    loop lib ECHO_BUFFER_MAX_SIZE fuel ctx size fc st = (Some true, st')
    /\ exists evs,
        world st' = world st ++ evs
        /\ send_sizes evs = seqZ size (ECHO_BUFFER_MAX_SIZE + 1 - size).
Proof.
  induction fuel as [|fuel IH];
    intros size fc st Hsend Hecho Hp Hsize Hls Hlr Hfuel; [lia|].
  simpl. destruct (Z.leb_spec size ECHO_BUFFER_MAX_SIZE) as [Hle|Hgt].
  2:{ exists st. split; [done|]. exists [].
      by rewrite app_nil_r, seqZ_nil by lia. }
  destruct fuel as [|fuel]; [lia|].
  rewrite (loop_body_echo _ _ p) by (done || lia).
  set (st1 := Build_EchoState _ _).
  destruct (IH (size + 1) 0 st1) as (st' & Hrun & evs & Hw & Hsizes);
    [done..|lia|done|simpl; by rewrite length_replicate|lia|].
  exists st'. split; [done|]. rewrite Hw. simpl. eexists.
  rewrite <- app_assoc. split; [done|].
  rewrite send_sizes_app, Hsizes. simpl.
  rewrite (seqZ_cons size) by lia. do 2 f_equal; lia.
Qed.

(** *** A network that delivers whole datagrams or nothing *)

Lemma loop_body_whole_datagrams fuel ctx size fc st s st' :
  no_partial_recv lib ->
  0 < size <= ECHO_BUFFER_MAX_SIZE ->
  loop_body lib ECHO_BUFFER_MAX_SIZE (S fuel) ctx size fc st = (s, st') ->
  s <> Stuck
  /\ (exists evs,
        world st' = world st ++ evs
        /\ forall n, (count_calls (is_recv_of n) evs
                      <= if (n =? size)%Z then 1 else 0)%nat)
  /\ (forall size' fc',
        s = Next size' fc' ->
        size' = size /\ fc' = to_uint16 (fc + 1) /\ fc' <= ECHO_MAX_RETRY_COUNT
        \/ size' = size + 1 /\ fc' = 0).
Proof.
  intros Hwhole Hsize Hbody. split_and!.
  2:{ revert Hbody. unfold loop_body.
      rewrite to_size_t_small by lia.
      destruct (ctx_params ctx) as [p|] eqn:Hp.
      2:{ rewrite prvSendPackets_null by (done || lia). simpl.
          intros [= <- <-]. exists []. rewrite app_nil_r. split; [done|].
          intros n. unfold count_calls. simpl. lia. }
      rewrite (prvSendPackets_valid _ p) by (done || lia).
      set (e := CallSend _ _ _).
      destruct (_ =? size); cbn [negb].
      2:{ intros [= <- <-]. exists [e]. split; [done|].
          intros n. unfold count_calls. simpl. lia. }
      rewrite (prvRecvPackets_turn _ _ p) by (done || lia). cbv zeta.
      set (e' := CallRecv _ _ _). set (rb := buf_write _ _).
      assert (forall n, (count_calls (is_recv_of n) [e; e']
                         <= if (n =? size)%Z then 1 else 0)%nat) as Hcount.
      { intros n. unfold count_calls. simpl. rewrite (Z.eqb_sym size n).
        by destruct (n =? size). }
      rewrite <- app_assoc. simpl.
      destruct (Hwhole (world st ++ [e]) (socket p)
                  (recvBuf (xEchoTestBuffer st)) size) as [->|Hnone].
      - rewrite Z.eqb_refl. destruct (memcmp _ _ _ =? 0);
          intros [= <- <-]; by exists [e; e'].
      - destruct (Z.eqb_spec (Sockets_Recv lib (world st ++ [e]) (socket p)
                    (recvBuf (xEchoTestBuffer st)) size).1 size); [lia|].
        destruct (Z.ltb_spec 0 (Sockets_Recv lib (world st ++ [e]) (socket p)
                    (recvBuf (xEchoTestBuffer st)) size).1); [lia|].
        destruct (_ <? to_uint16 _); intros [= <- <-]; by exists [e; e']. }
  - intros ->. revert Hbody. unfold loop_body.
    rewrite to_size_t_small by lia.
    destruct (prvSendPackets _ _ _ _ _) as [[|] w1] eqn:Hs; cbn [negb];
      [|done].
    destruct (ctx_params ctx) as [p|] eqn:Hp.
    2:{ rewrite prvSendPackets_null in Hs by (done || lia). done. }
    rewrite (prvRecvPackets_turn _ _ p) by (done || lia). cbv zeta.
    destruct (Hwhole w1 (socket p) (recvBuf (xEchoTestBuffer st)) size)
      as [->|Hnone].
    + rewrite Z.eqb_refl. by destruct (memcmp _ _ _ =? 0).
    + destruct (Z.eqb_spec (Sockets_Recv lib w1 (socket p)
                  (recvBuf (xEchoTestBuffer st)) size).1 size); [lia|].
      destruct (Z.ltb_spec 0 (Sockets_Recv lib w1 (socket p)
                  (recvBuf (xEchoTestBuffer st)) size).1); [lia|].
      by destruct (_ <? to_uint16 _).
  - apply loop_body_shape in Hbody as (_ & _ & evs & _ & _ & Hnext); [|done].
    intros size' fc' Hs. by destruct (Hnext size' fc' Hs) as (_ & _ & ?).
Qed.

Lemma loop_whole_datagrams fuel : forall ctx size fc st,
  no_partial_recv lib ->
  0 < size -> 0 <= fc <= ECHO_MAX_RETRY_COUNT ->
  (Z.to_nat ((ECHO_BUFFER_MAX_SIZE + 1 - size) * (ECHO_MAX_RETRY_COUNT + 1) - fc)
   < fuel)%nat ->
  (loop lib ECHO_BUFFER_MAX_SIZE fuel ctx size fc st).1 <> None
  /\ exists evs,
      world (loop lib ECHO_BUFFER_MAX_SIZE fuel ctx size fc st).2
      = world st ++ evs
      /\ forall n,
          Z.of_nat (count_calls (is_recv_of n) evs)
          <= if n <? size then 0
             else if n =? size then ECHO_MAX_RETRY_COUNT + 1 - fc
                  else ECHO_MAX_RETRY_COUNT + 1.
Proof.
  unfold ECHO_MAX_RETRY_COUNT.
  induction fuel as [|fuel IH]; intros ctx size fc st Hwhole Hsize Hfc Hfuel;
    [lia|].
  simpl. destruct (Z.leb_spec size ECHO_BUFFER_MAX_SIZE) as [Hle|Hgt].
  2:{ split; [done|]. exists []. rewrite app_nil_r. split; [done|].
      intros n. unfold count_calls. simpl.
      destruct (n <? size), (n =? size); lia. }
  destruct fuel as [|fuel]; [lia|].
  destruct (loop_body _ _ _ _ _ _ _) as [s st'] eqn:Hbody.
  apply loop_body_whole_datagrams in Hbody
      as (Hstuck & (evs & Hw & Hcount) & Hnext); [|done|lia].
  assert (forall n,
            Z.of_nat (count_calls (is_recv_of n) evs)
            <= if n <? size then 0
               else if n =? size then 10 + 1 - fc else 10 + 1) as Hone.
  { intros n. specialize (Hcount n).
    destruct (Z.ltb_spec n size), (Z.eqb_spec n size); lia. }
  destruct s as [r|size' fc'|]; [split; [done|]; by exists evs| |done].
  unfold ECHO_MAX_RETRY_COUNT in Hnext.
  destruct (Hnext size' fc' eq_refl) as [(-> & Hfc' & Hle')|[-> ->]].
  - rewrite to_uint16_small in Hfc' by lia. subst fc'.
    destruct (IH ctx size (fc + 1) st') as (Hres & evs1 & Hw1 & Hcount1);
      [done|lia|lia|lia|].
    split; [done|]. exists (evs ++ evs1).
    rewrite Hw1, Hw, <- app_assoc. split; [done|].
    intros n. rewrite count_calls_app.
    specialize (Hcount n). specialize (Hcount1 n).
    destruct (Z.ltb_spec n size), (Z.eqb_spec n size); lia.
  - destruct (IH ctx (size + 1) 0 st') as (Hres & evs1 & Hw1 & Hcount1);
      [done|lia|lia|lia|].
    split; [done|]. exists (evs ++ evs1).
    rewrite Hw1, Hw, <- app_assoc. split; [done|].
    intros n. rewrite count_calls_app.
    specialize (Hcount n). specialize (Hcount1 n).
    destruct (Z.ltb_spec n size), (Z.eqb_spec n size),
      (Z.ltb_spec n (size + 1)), (Z.eqb_spec n (size + 1)); lia.
Qed.

(** *** Rounds per packet size, on any network *)

Lemma count_sends_recvs n m recvs :
  Forall (fun e => is_recv_of m e = true) recvs ->
  count_calls (is_send_of n) recvs = 0%nat.
Proof.
  induction 1 as [|e recvs He _ IH]; [done|].
  rewrite count_calls_cons, IH. by destruct e.
Qed.

Lemma loop_rounds_bounded fuel : forall ctx size fc st,
  0 < size -> 0 <= fc <= ECHO_MAX_RETRY_COUNT ->
  exists evs,
    world (loop lib ECHO_BUFFER_MAX_SIZE fuel ctx size fc st).2
    = world st ++ evs
    /\ forall n,
        Z.of_nat (count_calls (is_send_of n) evs)
        <= if n <? size then 0
           else if n =? size then ECHO_MAX_RETRY_COUNT + 1 - fc
                else ECHO_MAX_RETRY_COUNT + 1.
Proof.
  unfold ECHO_MAX_RETRY_COUNT.
  assert (forall size fc n,
            0 <= fc <= 10 ->
            Z.of_nat (count_calls (is_send_of n) [])
            <= if n <? size then 0
               else if n =? size then 10 + 1 - fc else 10 + 1) as Hnil.
  { intros size fc n Hfc. unfold count_calls. simpl.
    destruct (n <? size), (n =? size); lia. }
  induction fuel as [|fuel IH]; intros ctx size fc st Hsize Hfc; simpl.
  { exists []. rewrite app_nil_r. split; [done|]. intros n. by apply Hnil. }
  destruct (Z.leb_spec size ECHO_BUFFER_MAX_SIZE) as [Hle|Hgt].
  2:{ exists []. rewrite app_nil_r. split; [done|]. intros n. by apply Hnil. }
  destruct (loop_body _ _ _ _ _ _ _) as [s st'] eqn:Hbody.
  apply loop_body_shape in Hbody
      as (_ & _ & evs & Hw & Hround & Hnext); [|lia].
  assert (forall n, (count_calls (is_send_of n) evs
                     <= if (n =? size)%Z then 1 else 0)%nat) as Hcount.
  { intros n. destruct Hround as [->|(sock & recvs & -> & Hall & _)].
    - unfold count_calls. simpl. lia.
    - rewrite count_calls_cons, (count_sends_recvs _ size) by done.
      simpl. rewrite (Z.eqb_sym size n). destruct (n =? size); lia. }
  assert (forall n,
            Z.of_nat (count_calls (is_send_of n) evs)
            <= if n <? size then 0
               else if n =? size then 10 + 1 - fc else 10 + 1) as Hone.
  { intros n. specialize (Hcount n).
    destruct (Z.ltb_spec n size), (Z.eqb_spec n size); lia. }
  destruct s as [r|size' fc'|]; [by exists evs| |by exists evs].
  unfold ECHO_MAX_RETRY_COUNT in Hnext.
  destruct (Hnext size' fc' eq_refl) as (_ & _ & [(-> & Hfc' & Hle')|[-> ->]]).
  - rewrite to_uint16_small in Hfc' by lia. subst fc'.
    destruct (IH ctx size (fc + 1) st') as (evs1 & Hw1 & Hcount1); [lia|lia|].
    exists (evs ++ evs1). rewrite Hw1, Hw, <- app_assoc. split; [done|].
    intros n. rewrite count_calls_app.
    specialize (Hcount n). specialize (Hcount1 n).
    destruct (Z.ltb_spec n size), (Z.eqb_spec n size); lia.
  - destruct (IH ctx (size + 1) 0 st') as (evs1 & Hw1 & Hcount1); [lia|lia|].
    exists (evs ++ evs1). rewrite Hw1, Hw, <- app_assoc. split; [done|].
    intros n. rewrite count_calls_app.
    specialize (Hcount n). specialize (Hcount1 n).
    destruct (Z.ltb_spec n size), (Z.eqb_spec n size),
      (Z.ltb_spec n (size + 1)), (Z.eqb_spec n (size + 1)); lia.
Qed.

(** *** The task *)

Lemma RunEchoTask_cases fuel st :
  length (sendBuf (xEchoTestBuffer st)) = Z.to_nat ECHO_BUFFER_MAX_SIZE ->
  length (recvBuf (xEchoTestBuffer st)) = Z.to_nat ECHO_BUFFER_MAX_SIZE ->
  RunEchoTask lib ECHO_BUFFER_MAX_SIZE fuel st = (None, st)
  \/ exists ctx status st2 tail,
      let st1 :=
        {| xEchoTestBuffer :=
             {| sendBuf := test_pattern ECHO_BUFFER_MAX_SIZE;
                recvBuf := test_pattern ECHO_BUFFER_MAX_SIZE |};
           world := world st
                    ++ [CallConnect 0 ECHO_SERVER_ENDPOINT ECHO_SERVER_PORT
                          ECHO_SEND_RECV_TIMEOUT_MS ECHO_SEND_RECV_TIMEOUT_MS] |} in
      (prvLoopSendAndReceive lib ECHO_BUFFER_MAX_SIZE fuel ctx st1
       = (status, st2)
       \/ (status, st2) = (Some false, st1))
      /\ RunEchoTask lib ECHO_BUFFER_MAX_SIZE fuel st
         = (status, {| xEchoTestBuffer := xEchoTestBuffer st2;
                       world := world st2 ++ tail |})
      /\ (tail = [] \/ exists s, tail = [CallDisconnect s]).
Proof.
  intros Hls Hlr. unfold RunEchoTask.
  destruct (prvInitializeTestData fuel (sendBuf _) _) as [sb| |] eqn:Hsb;
    [|by left..].
  destruct (prvInitializeTestData fuel (recvBuf _) _) as [rb| |] eqn:Hrb;
    [|by left..].
  apply prvInitializeTestData_Ret in Hsb as ->; [|lia|done].
  apply prvInitializeTestData_Ret in Hrb as ->; [|lia|done].
  unfold prvTransportNetworkConnect, Plaintext_FreeRTOS_UDP_Connect. simpl.
  destruct (Sockets_Udp_Connect _ _ _ _ _ _ _) as [code sock].
  set (ctx := Some {| pParams := Some {| socket := sock |} |}).
  set (st1 := Build_EchoState _ _).
  assert (forall w, prvTransportNetworkDisconnect lib ctx w = w ++ []
                    \/ exists s, prvTransportNetworkDisconnect lib ctx w
                                 = w ++ [CallDisconnect s]) as Hdisc.
  { intros w. unfold prvTransportNetworkDisconnect,
      Plaintext_FreeRTOS_UDP_Disconnect. simpl.
    destruct (_ =? _); simpl; [left; by rewrite app_nil_r|eauto]. }
  destruct (code =? 0); simpl.
  - destruct (prvLoopSendAndReceive _ _ _ _ _) as [[r|] st2] eqn:Hloop.
    + right. destruct (Hdisc (world st2)) as [->|[s ->]];
        exists ctx, (Some r), st2; eexists; split_and!; eauto.
    + right. exists ctx, None, st2, []. rewrite app_nil_r.
      split_and!; eauto. by destruct st2.
  - right. change (world st ++ [_]) with (world st1).
    destruct (Hdisc (world st1)) as [->|[s ->]];
      exists ctx, (Some false), st1; eexists; split_and!; eauto.
Qed.

(** *** The claims about the echo task *)

(** C1, as the code has it.  In a run of the task, the first receive
    attempt of the first round sees the receive buffer filled with the
    test pattern 0,1,...,255,0,... that [RunEchoTask] wrote into it; the
    first receive attempt of every later round sees a receive buffer of
    [ECHO_BUFFER_MAX_SIZE] zero bytes (the [memset] that ends each
    round). *)
Theorem recv_buffer_zeroed_after_first_round fuel st :
  length (sendBuf (xEchoTestBuffer st)) = Z.to_nat ECHO_BUFFER_MAX_SIZE ->
  length (recvBuf (xEchoTestBuffer st)) = Z.to_nat ECHO_BUFFER_MAX_SIZE ->
  exists evs,
    world (RunEchoTask lib ECHO_BUFFER_MAX_SIZE fuel st).2 = world st ++ evs
    /\ zeroed_after_first (test_pattern ECHO_BUFFER_MAX_SIZE)
                          (Z.to_nat ECHO_BUFFER_MAX_SIZE)
                          (first_attempts evs).
Proof.
  intros Hls Hlr.
  destruct (RunEchoTask_cases fuel st Hls Hlr)
    as [->|(ctx & status & st2 & tail & Hloop & -> & Htail)].
  { exists []. by rewrite app_nil_r. }
  cbv zeta in Hloop. simpl.
  assert (forall evs, first_attempts (evs ++ tail) = first_attempts evs)
    as Htl.
  { intros evs. destruct Htail as [->|[s ->]]; [by rewrite app_nil_r|].
    by apply first_attempts_snoc. }
  destruct Hloop as [Hloop|[= _ ->]].
  - set (st1 := Build_EchoState _ _) in Hloop.
    destruct (loop_first_attempts fuel ctx 10 0 st1) as (evs & Hw & Hz);
      [lia|simpl; rewrite length_test_pattern; lia|].
    unfold prvLoopSendAndReceive in Hloop. rewrite Hloop in Hw.
    simpl in Hw. rewrite Hw, <- !app_assoc. eexists. split; [done|].
    simpl. by rewrite Htl.
  - simpl. rewrite <- app_assoc. eexists. split; [done|].
    specialize (Htl []). simpl in *. by rewrite Htl.
Qed.

(** C10.  The send/receive loop never writes the send buffer, and in a run
    of the task the send buffer holds the test pattern from the
    initialisation on: every datagram handed to the library is a prefix of
    that pattern. *)
Theorem send_buffer_never_written fuel :
  (forall ctx st,
      sendBuf (xEchoTestBuffer
                 (prvLoopSendAndReceive lib ECHO_BUFFER_MAX_SIZE fuel ctx st).2)
      = sendBuf (xEchoTestBuffer st))
  /\ (forall st,
        length (sendBuf (xEchoTestBuffer st)) = Z.to_nat ECHO_BUFFER_MAX_SIZE ->
        length (recvBuf (xEchoTestBuffer st)) = Z.to_nat ECHO_BUFFER_MAX_SIZE ->
        (RunEchoTask lib ECHO_BUFFER_MAX_SIZE fuel st = (None, st)
         \/ sendBuf (xEchoTestBuffer
                       (RunEchoTask lib ECHO_BUFFER_MAX_SIZE fuel st).2)
            = test_pattern ECHO_BUFFER_MAX_SIZE)
        /\ exists evs,
            world (RunEchoTask lib ECHO_BUFFER_MAX_SIZE fuel st).2
            = world st ++ evs
            /\ Forall (sends_from (test_pattern ECHO_BUFFER_MAX_SIZE)) evs).
Proof.
  split.
  { intros ctx st. by apply loop_frame. }
  intros st Hls Hlr.
  destruct (RunEchoTask_cases fuel st Hls Hlr)
    as [->|(ctx & status & st2 & tail & Hloop & -> & Htail)].
  { split; [by left|]. exists []. by rewrite app_nil_r. }
  cbv zeta in Hloop. simpl.
  assert (Forall (sends_from (test_pattern ECHO_BUFFER_MAX_SIZE)) tail)
    as Htl.
  { destruct Htail as [->|[s ->]]; by repeat constructor. }
  destruct Hloop as [Hloop|[= _ ->]].
  - set (st1 := Build_EchoState _ _) in Hloop.
    destruct (loop_frame fuel ctx 10 0 st1) as (Hsb & evs & Hw & Hall);
      [lia|].
    unfold prvLoopSendAndReceive in Hloop. rewrite Hloop in Hsb, Hw.
    simpl in Hsb, Hw, Hall. split; [by right|].
    rewrite Hw, <- !app_assoc. eexists. split; [done|].
    constructor; [done|]. by apply Forall_app.
  - simpl. split; [by right|].
    rewrite <- app_assoc. eexists. split; [done|]. by constructor.
Qed.

(** C6.  When every send succeeds and every receive returns a byte-exact
    echo, the loop returns success, and the sizes of the datagrams it
    sent, in the order of sending, are 10, 11, ..., ECHO_BUFFER_MAX_SIZE. *)
Theorem echo_loop_all_sizes fuel ctx p st :
  sends_succeed lib -> recvs_echo lib ->
  ctx_params ctx = Some p ->
  length (sendBuf (xEchoTestBuffer st)) = Z.to_nat ECHO_BUFFER_MAX_SIZE ->
  length (recvBuf (xEchoTestBuffer st)) = Z.to_nat ECHO_BUFFER_MAX_SIZE ->
  (Z.to_nat (ECHO_BUFFER_MAX_SIZE - 9) < fuel)%nat ->
  exists st',
    prvLoopSendAndReceive lib ECHO_BUFFER_MAX_SIZE fuel ctx st
    = (Some true, st')
    /\ exists evs,
        world st' = world st ++ evs
        /\ send_sizes evs = seqZ 10 (ECHO_BUFFER_MAX_SIZE - 9).
Proof.
  intros Hsend Hecho Hp Hls Hlr Hfuel. unfold prvLoopSendAndReceive.
  destruct (loop_echo fuel ctx p 10 0 st) as (st' & Hrun & evs & Hw & Hsz);
    [done..|lia|].
  exists st'. split; [done|]. exists evs. split; [done|].
  rewrite Hsz. f_equal. lia.
Qed.

(** C5, as the code has it.  On any network the loop makes at most
    [ECHO_MAX_RETRY_COUNT + 1] rounds, each with one send, for any one packet
    size.  The receive attempts inside a round are not bounded by the code;
    when every receive returns the count requested or a value that is not
    positive, each round makes one receive attempt, so the loop returns and
    makes at most [ECHO_MAX_RETRY_COUNT + 1] receive attempts for any one
    packet size. *)
Theorem recv_retry_bounded fuel ctx st :
  (exists evs,
      world (prvLoopSendAndReceive lib ECHO_BUFFER_MAX_SIZE fuel ctx st).2
      = world st ++ evs
      /\ forall n, Z.of_nat (count_calls (is_send_of n) evs)
                   <= ECHO_MAX_RETRY_COUNT + 1)
  /\ (no_partial_recv lib ->
      (Z.to_nat ((ECHO_BUFFER_MAX_SIZE - 9) * (ECHO_MAX_RETRY_COUNT + 1))
       < fuel)%nat ->
      (prvLoopSendAndReceive lib ECHO_BUFFER_MAX_SIZE fuel ctx st).1 <> None
      /\ exists evs,
          world (prvLoopSendAndReceive lib ECHO_BUFFER_MAX_SIZE fuel ctx st).2
          = world st ++ evs
          /\ forall n, Z.of_nat (count_calls (is_recv_of n) evs)
                       <= ECHO_MAX_RETRY_COUNT + 1).
Proof.
  unfold prvLoopSendAndReceive. split.
  { destruct (loop_rounds_bounded fuel ctx 10 0 st) as (evs & Hw & Hcount);
      [lia|unfold ECHO_MAX_RETRY_COUNT; lia|].
    exists evs. split; [done|].
    intros n. specialize (Hcount n). unfold ECHO_MAX_RETRY_COUNT in *.
    destruct (n <? 10), (n =? 10); lia. }
  intros Hwhole Hfuel.
  destruct (loop_whole_datagrams fuel ctx 10 0 st)
    as (Hres & evs & Hw & Hcount);
    [done|lia|unfold ECHO_MAX_RETRY_COUNT; lia| |].
  { unfold ECHO_MAX_RETRY_COUNT in *. lia. }
  split; [done|]. exists evs. split; [done|].
  intros n. specialize (Hcount n). unfold ECHO_MAX_RETRY_COUNT in *.
  destruct (n <? 10), (n =? 10); lia.
Qed.

(** C2, as the code has it.  Inside [prvRecvPackets] a receive that
    returns the requested size ends it with success, one that returns zero
    or a negative value ends it with failure, and one that returns a
    positive count other than the size is followed at once by another
    receive; the failure counter is no part of this.  Then, in the round:
    a failed [prvRecvPackets] increments the counter, and the loop breaks
    with failure when the counter exceeds [ECHO_MAX_RETRY_COUNT] and
    otherwise repeats the round with the same size; a successful one
    whose bytes equal the send buffer over the current size resets the
    counter to zero and advances the size by one. *)
Theorem echo_retry_policy fuel ctx p size fc st :
  ctx_params ctx = Some p ->
  0 < size <= ECHO_BUFFER_MAX_SIZE ->
  length (sendBuf (xEchoTestBuffer st)) = Z.to_nat ECHO_BUFFER_MAX_SIZE ->
  length (recvBuf (xEchoTestBuffer st)) = Z.to_nat ECHO_BUFFER_MAX_SIZE ->
  let payload := take (Z.to_nat size) (sendBuf (xEchoTestBuffer st)) in
  (forall buf w,
      let r := Sockets_Recv lib w (socket p) buf size in
      let buf' := buf_write (take (Z.to_nat size) r.2) buf in
      let w' := w ++ [CallRecv (socket p) buf size] in
      (r.1 = size ->
       prvRecvPackets lib (S fuel) ctx buf size w = (Some true, buf', w'))
      /\ (r.1 <= 0 ->
          prvRecvPackets lib (S fuel) ctx buf size w = (Some false, buf', w'))
      /\ (0 < r.1 -> r.1 <> size ->
          prvRecvPackets lib (S fuel) ctx buf size w
          = prvRecvPackets lib fuel ctx buf' size w'))
  /\ (to_size_t (Sockets_Send lib (world st) (socket p) payload size) = size ->
      forall res rb w2,
        prvRecvPackets lib fuel ctx (recvBuf (xEchoTestBuffer st)) size
                       (world st ++ [CallSend (socket p) payload size])
        = (res, rb, w2) ->
        (res = Some false ->
         (loop_body lib ECHO_BUFFER_MAX_SIZE fuel ctx size fc st).1
         = if ECHO_MAX_RETRY_COUNT <? to_uint16 (fc + 1)
           then Break false
           else Next size (to_uint16 (fc + 1)))
        /\ (res = Some true -> take (Z.to_nat size) rb = payload ->
            (loop_body lib ECHO_BUFFER_MAX_SIZE fuel ctx size fc st).1
            = Next (size + 1) 0))
  /\ (forall st',
        loop_body lib ECHO_BUFFER_MAX_SIZE fuel ctx size fc st
        = (Break false, st') ->
        loop lib ECHO_BUFFER_MAX_SIZE (S fuel) ctx size fc st
        = (Some false, st')).
Proof.
  intros Hp Hsize Hls Hlr payload. split_and!.
  - intros buf w r buf' w'. subst r buf' w'.
    rewrite (prvRecvPackets_turn _ _ p) by (done || lia). cbv zeta.
    split_and!.
    + intros ->. by rewrite Z.eqb_refl.
    + intros Hle. destruct (Z.eqb_spec (Sockets_Recv lib w (socket p) buf size).1
                                       size); [lia|].
      by destruct (Z.ltb_spec 0 (Sockets_Recv lib w (socket p) buf size).1);
        [lia|].
    + intros Hpos Hne.
      destruct (Z.eqb_spec (Sockets_Recv lib w (socket p) buf size).1 size);
        [done|].
      by destruct (Z.ltb_spec 0 (Sockets_Recv lib w (socket p) buf size).1);
        [|lia].
  - intros Hsent res rb w2 Hrecv. unfold loop_body.
    rewrite to_size_t_small by lia.
    rewrite (prvSendPackets_valid _ p) by (done || lia).
    fold payload. rewrite Hsent, Z.eqb_refl. cbn [negb]. rewrite Hrecv.
    split.
    + intros ->. by destruct (_ <? _).
    + intros -> Hrb.
      apply (prvRecvPackets_shape _ _ p) in Hrecv as (Hl & _); [|done|lia].
      assert (memcmp (sendBuf (xEchoTestBuffer st)) rb (Z.to_nat size) = 0)
        as ->; [|done].
      apply memcmp_zero_iff; [lia..|]. by rewrite Hrb.
  - intros st' Hbody. simpl. rewrite Hbody.
    by destruct (Z.leb_spec size ECHO_BUFFER_MAX_SIZE); [|lia].
Qed.

End EchoFacts.

(** ** Concrete runs *)

(** With [trickle_lib] the [do ... while] of [prvRecvPackets] never ends:
    whatever the fuel, it is used up by receive attempts. *)
Lemma trickle_prvRecvPackets fuel : forall ctx p buf w,
  ctx_params ctx = Some p ->
  let r := prvRecvPackets trickle_lib fuel ctx buf 10 w in
  r.1.1 = None
  /\ count_calls is_recv r.2 = (count_calls is_recv w + fuel)%nat.
Proof.
  induction fuel as [|fuel IH]; intros ctx p buf w Hp; simpl.
  { split; [done|lia]. }
  pose proof (prvRecvPackets_turn trickle_lib fuel ctx p buf 10 w Hp) as Hturn.
  simpl in Hturn. rewrite Hturn by done.
  destruct (IH ctx p (buf_write [0] buf) (w ++ [CallRecv (socket p) buf 10]) Hp)
    as [Hres Hcount].
  split; [done|]. rewrite Hcount, count_calls_app, count_calls_cons.
  unfold count_calls. simpl. lia.
Qed.

Lemma trickle_loop max fuel ctx p st :
  10 <= max < 2 ^ 31 - 1 ->
  ctx_params ctx = Some p ->
  count_calls is_recv
    (world (prvLoopSendAndReceive trickle_lib max (S fuel) ctx st).2)
  = (count_calls is_recv (world st) + fuel)%nat.
Proof.
  intros Hmax Hp. unfold prvLoopSendAndReceive, loop.
  destruct (Z.leb_spec 10 max); [|lia].
  unfold loop_body. rewrite to_size_t_small by lia.
  rewrite (prvSendPackets_valid _ _ p) by done.
  change (to_size_t _ =? 10) with true. cbn [negb].
  set (w1 := world st ++ _).
  destruct (trickle_prvRecvPackets fuel ctx p
              (recvBuf (xEchoTestBuffer st)) w1 Hp) as [Hres Hcount].
  destruct (prvRecvPackets _ _ _ _ _ _) as [[res rb] w2].
  simpl in Hres, Hcount. subst res. simpl. rewrite Hcount.
  unfold w1. rewrite count_calls_app, count_calls_cons.
  unfold count_calls. simpl. lia.
Qed.

(** C1 fails as stated: in a run of the task against a network that loses
    every datagram, the first receive attempt is made on a receive buffer
    that holds the test pattern, whose byte 1 is 1. *)
Lemma first_receive_sees_pattern :
  ~ Forall recv_buf_zeroed
      (world (RunEchoTask lossy_lib default_max_size 2000
                          (boot_state default_max_size)).2).
Proof.
  intros Hall.
  apply (Forall_lookup_1 _ _ 2%nat
           (CallRecv 1 (test_pattern default_max_size) 10)) in Hall;
    [|vm_compute; reflexivity].
  apply (Forall_lookup_1 _ _ 1%nat 1) in Hall; [done|].
  vm_compute; reflexivity.
Qed.

(** C2 fails as stated: in one round the receives return 5 and then 0 bytes
    of the 10 requested, two short receives, and the failure counter goes
    from 0 to 1. *)
Lemma short_receive_not_counted :
  (loop_body short_then_none_lib default_max_size 5 connected_ctx 10 0
             (pattern_state default_max_size)).1 = Next 10 1
  /\ recv_returns short_then_none_lib []
       (world (loop_body short_then_none_lib default_max_size 5 connected_ctx
                         10 0 (pattern_state default_max_size)).2)
     = [5; 0].
Proof. split; vm_compute; reflexivity. Qed.

(** C3 fails as stated: [Plaintext_FreeRTOS_sendTo] hands back whatever
    [Sockets_Send] returned, so its results are not confined to the values
    of a three-member enumeration, however these are numbered. *)
Lemma send_result_not_a_status :
  ~ exists enc : PlaintextTransportStatus_t -> Z,
      forall r, exists s,
          (Plaintext_FreeRTOS_sendTo (const_send_lib r) connected_ctx
                                     (Some [1; 2; 3]) 3 []).1 = enc s.
Proof.
  intros [enc H].
  destruct (H 0) as [s0 H0], (H 1) as [s1 H1], (H 2) as [s2 H2],
    (H 3) as [s3 H3].
  simpl in *. destruct s0, s1, s2, s3; congruence.
Qed.

(** C5 fails as stated: against a network that delivers one byte per
    receive, no number bounds the receive attempts made for the first
    packet. *)
Lemma trickle_receive_unbounded :
  ~ exists N : nat,
      forall fuel,
        (count_calls is_recv
           (world (prvLoopSendAndReceive trickle_lib default_max_size fuel
                     connected_ctx (pattern_state default_max_size)).2)
         <= N)%nat.
Proof.
  intros [N H]. specialize (H (S (S N))).
  rewrite (trickle_loop _ _ _ {| socket := 1 |}) in H;
    [|unfold default_max_size; lia|done].
  change (world (pattern_state default_max_size)) with (@nil SockCall) in H.
  unfold count_calls in H. simpl in H. lia.
Qed.

(** ** The theorems at concrete inputs *)

Lemma connect_status_cases_witness :
  ctx_params connected_ctx = Some {| socket := 1 |}
  /\ (Plaintext_FreeRTOS_UDP_Connect lossy_lib connected_ctx
        (Some ECHO_SERVER_ENDPOINT) 9000 5000 5000 []).1.1
     = PLAINTEXT_TRANSPORT_SUCCESS.
Proof.
  split; [reflexivity|].
  destruct (connect_status_cases lossy_lib connected_ctx
              (Some ECHO_SERVER_ENDPOINT) 9000 5000 5000 []) as [_ H].
  destruct (H {| socket := 1 |} ECHO_SERVER_ENDPOINT eq_refl eq_refl)
    as [_ [_ Hsuccess]].
  apply Hsuccess. reflexivity.
Defined.

Lemma disconnect_status_cases_witness :
  (Plaintext_FreeRTOS_UDP_Disconnect lossy_lib connected_ctx []).1
  <> PLAINTEXT_TRANSPORT_INVALID_PARAMETER
  /\ exists p,
      ctx_params connected_ctx = Some p
      /\ Plaintext_FreeRTOS_UDP_Disconnect lossy_lib connected_ctx []
         = (PLAINTEXT_TRANSPORT_SUCCESS, [] ++ [CallDisconnect (socket p)]).
Proof.
  assert ((Plaintext_FreeRTOS_UDP_Disconnect lossy_lib connected_ctx []).1
          <> PLAINTEXT_TRANSPORT_INVALID_PARAMETER) as Hvalid.
  { simpl. discriminate. }
  split; [exact Hvalid|].
  destruct (disconnect_status_cases lossy_lib connected_ctx []) as [_ [_ H]].
  apply H. exact Hvalid.
Defined.

Lemma send_recv_return_raw_witness :
  ctx_params connected_ctx = Some {| socket := 1 |}
  /\ 3 <> 0
  /\ (Plaintext_FreeRTOS_sendTo (const_send_lib 7) connected_ctx
                                (Some [1; 2; 3]) 3 []).1
     = Sockets_Send (const_send_lib 7) [] 1 (take (Z.to_nat 3) [1; 2; 3]) 3.
Proof.
  split; [reflexivity|]. split; [lia|].
  destruct (send_recv_return_raw (const_send_lib 7) connected_ctx
              (Some [1; 2; 3]) 3 []) as [H _].
  apply (H {| socket := 1 |} [1; 2; 3]); [reflexivity|reflexivity|lia].
Defined.

Lemma rejected_arguments_no_effect_witness :
  ctx_params None = None
  /\ Plaintext_FreeRTOS_recvFrom lossy_lib None (Some [1; 2; 3]) 3 []
     = (-1, Some [1; 2; 3], []).
Proof.
  split; [reflexivity|].
  destruct (rejected_arguments_no_effect lossy_lib None []) as (_ & _ & _ & H).
  apply H. left. reflexivity.
Defined.

Lemma prvInitializeTestData_spec_witness :
  exists buf',
    prvInitializeTestData 5 [9; 9; 9; 9] 3 = Ret buf'
    /\ length buf' = length [9; 9; 9; 9]
    /\ (forall i : nat, Z.of_nat i < 3 -> buf' !! i = Some (Z.of_nat i mod 256))
    /\ (forall i : nat, 3 <= Z.of_nat i -> buf' !! i = [9; 9; 9; 9] !! i).
Proof.
  apply (prvInitializeTestData_spec 5 [9; 9; 9; 9] 3).
  - split; [lia|reflexivity].
  - simpl. lia.
  - simpl. lia.
Defined.

Lemma default_max_size_range : 0 <= default_max_size < 2 ^ 31 - 1.
Proof. split; [discriminate|reflexivity]. Defined.

Lemma small_max_size_range : 0 <= 12 < 2 ^ 31 - 1.
Proof. split; [discriminate|reflexivity]. Defined.

Lemma recv_buffer_zeroed_after_first_round_witness :
  exists evs,
    world (RunEchoTask lossy_lib default_max_size 2000
                       (boot_state default_max_size)).2
    = world (boot_state default_max_size) ++ evs
    /\ zeroed_after_first (test_pattern default_max_size)
                          (Z.to_nat default_max_size) (first_attempts evs).
Proof.
  apply (recv_buffer_zeroed_after_first_round lossy_lib default_max_size
           default_max_size_range 2000 (boot_state default_max_size));
    vm_compute; reflexivity.
Defined.

Lemma send_buffer_never_written_witness :
  exists evs,
    world (RunEchoTask lossy_lib default_max_size 2000
                       (boot_state default_max_size)).2
    = world (boot_state default_max_size) ++ evs
    /\ Forall (sends_from (test_pattern default_max_size)) evs.
Proof.
  destruct (send_buffer_never_written lossy_lib default_max_size
              default_max_size_range 2000) as [_ H].
  apply (H (boot_state default_max_size)); vm_compute; reflexivity.
Defined.

Lemma sends_succeed_echo_lib : sends_succeed echo_lib.
Proof. intros w s payload n. reflexivity. Defined.

Lemma recvs_echo_echo_lib : recvs_echo echo_lib.
Proof. intros w s buf n. split; reflexivity. Defined.

Lemma no_partial_recv_lossy_lib : no_partial_recv lossy_lib.
Proof. intros w s buf n. right. simpl. lia. Defined.

Lemma echo_loop_all_sizes_witness :
  exists st',
    prvLoopSendAndReceive echo_lib default_max_size 2000 connected_ctx
                          (pattern_state default_max_size)
    = (Some true, st')
    /\ exists evs,
        world st' = world (pattern_state default_max_size) ++ evs
        /\ send_sizes evs = seqZ 10 (default_max_size - 9).
Proof.
  apply (echo_loop_all_sizes echo_lib default_max_size default_max_size_range
           2000 connected_ctx {| socket := 1 |}
           (pattern_state default_max_size)
           sends_succeed_echo_lib recvs_echo_echo_lib).
  - reflexivity.
  - vm_compute; reflexivity.
  - vm_compute; reflexivity.
  - apply Nat.ltb_lt. vm_compute; reflexivity.
Defined.

Lemma recv_retry_bounded_witness :
  (prvLoopSendAndReceive lossy_lib 12 40 connected_ctx (pattern_state 12)).1
  <> None
  /\ exists evs,
      world (prvLoopSendAndReceive lossy_lib 12 40 connected_ctx
                                   (pattern_state 12)).2
      = world (pattern_state 12) ++ evs
      /\ forall n, Z.of_nat (count_calls (is_recv_of n) evs)
                   <= ECHO_MAX_RETRY_COUNT + 1.
Proof.
  destruct (recv_retry_bounded lossy_lib 12 small_max_size_range 40
              connected_ctx (pattern_state 12)) as [_ H].
  apply H; [exact no_partial_recv_lossy_lib|].
  apply Nat.ltb_lt. vm_compute; reflexivity.
Defined.

Lemma echo_retry_policy_witness :
  (loop_body lossy_lib 12 5 connected_ctx 10 0 (pattern_state 12)).1
  = if ECHO_MAX_RETRY_COUNT <? to_uint16 (0 + 1)
    then Break false
    else Next 10 (to_uint16 (0 + 1)).
Proof.
  destruct (echo_retry_policy lossy_lib 12 small_max_size_range 5 connected_ctx
              {| socket := 1 |} 10 0 (pattern_state 12))
    as (_ & Hround & _).
  - reflexivity.
  - split; [reflexivity|discriminate].
  - reflexivity.
  - reflexivity.
  - eapply Hround; [reflexivity| |reflexivity]. vm_compute; reflexivity.
Defined.

(** * Further properties of the code *)

(** ** The transport adapter: how the operations compose *)

Section TransportMore.

Variable lib : SocketsLib.

(** X1.  A connect with accepted arguments makes one library call, with the
    host, port and timeouts as given, and leaves in the context the handle
    that [Sockets_Udp_Connect] stored, whatever the status.  A disconnect
    that follows closes exactly that handle, unless the library left the
    invalid-socket sentinel there, in which case it is refused. *)
Theorem connect_then_disconnect ctx p host port rto sto w :
  ctx_params ctx = Some p ->
  let r := Sockets_Udp_Connect lib w (socket p) host port rto sto in
  let c := Plaintext_FreeRTOS_UDP_Connect lib ctx (Some host) port rto sto w in
  c.1.2 = Some {| pParams := Some {| socket := r.2 |} |}
  /\ c.2 = w ++ [CallConnect (socket p) host port rto sto]
  /\ Plaintext_FreeRTOS_UDP_Disconnect lib c.1.2 c.2
     = if r.2 =? SOCKETS_INVALID_SOCKET lib
       then (PLAINTEXT_TRANSPORT_INVALID_PARAMETER, c.2)
       else (PLAINTEXT_TRANSPORT_SUCCESS, c.2 ++ [CallDisconnect r.2]).
Proof.
  intros Hp. unfold Plaintext_FreeRTOS_UDP_Connect. rewrite Hp.
  destruct (Sockets_Udp_Connect _ _ _ _ _ _ _) as [code sock].
  by destruct (code =? 0).
Qed.

(** X2.  A disconnect does not invalidate the stored socket: after a successful
    disconnect a second one on the same context succeeds as well and closes
    the same handle once more. *)
Theorem disconnect_twice ctx w w1 :
  Plaintext_FreeRTOS_UDP_Disconnect lib ctx w
  = (PLAINTEXT_TRANSPORT_SUCCESS, w1) ->
  exists p,
    ctx_params ctx = Some p
    /\ w1 = w ++ [CallDisconnect (socket p)]
    /\ Plaintext_FreeRTOS_UDP_Disconnect lib ctx w1
       = (PLAINTEXT_TRANSPORT_SUCCESS, w1 ++ [CallDisconnect (socket p)]).
Proof.
  unfold Plaintext_FreeRTOS_UDP_Disconnect.
  destruct (ctx_params ctx) as [p|]; [|done].
  destruct (socket p =? SOCKETS_INVALID_SOCKET lib); [done|].
  intros [= <-]. by exists p.
Qed.

(** X3.  The connect hook of the transport test demo reports success exactly
    when the context, its parameter block and the host name are non-NULL
    and [Sockets_Udp_Connect] returns zero; a rejected argument and a failed
    connect both come out as [NETWORK_CONNECT_FAILURE], the former without
    a library call. *)
Theorem test_connect_status ctx info w :
  let r := TransportTest.prvTransportNetworkConnect lib ctx info w in
  (r.1.1 = TransportTest.NETWORK_CONNECT_SUCCESS <->
     exists p host,
       ctx_params ctx = Some p
       /\ TransportTest.pHostName info = Some host
       /\ (Sockets_Udp_Connect lib w (socket p) host
             (TransportTest.port info) 5000 5000).1 = 0)
  /\ (ctx_params ctx = None \/ TransportTest.pHostName info = None ->
      r = (TransportTest.NETWORK_CONNECT_FAILURE, ctx, w)).
Proof.
  unfold TransportTest.prvTransportNetworkConnect,
    Plaintext_FreeRTOS_UDP_Connect.
  destruct (ctx_params ctx) as [p|].
  2:{ simpl. split; [split; [done|]|done]. by intros (? & ? & ? & _). }
  destruct (TransportTest.pHostName info) as [host|].
  2:{ simpl. split; [split; [done|]|done]. by intros (? & ? & _ & ? & _). }
  destruct (Sockets_Udp_Connect _ _ _ _ _ _ _) as [code sock] eqn:Hc.
  destruct (Z.eqb_spec code 0) as [->|Hne]; simpl.
  - split; [|by intros [|]]. split; [|done].
    intros _. exists p, host. by rewrite Hc.
  - split; [|by intros [|]]. split; [done|].
    intros (p' & host' & [= <-] & [= <-] & Hz). by rewrite Hc in Hz.
Qed.

(** ** The echo task: sending and receiving one packet *)

(** X4.  With accepted arguments, a size that fits a positive [int32_t] and a
    library result in the [int32_t] range, [prvSendPackets] reports success
    exactly when [Sockets_Send] sent all the bytes; a negative error code is
    never taken for success. *)
Theorem prvSendPackets_reports ctx p buf size w :
  ctx_params ctx = Some p ->
  0 < size < 2 ^ 31 ->
  let ret := Sockets_Send lib w (socket p) (take (Z.to_nat size) buf) size in
  - 2 ^ 31 <= ret < 2 ^ 31 ->
  ((prvSendPackets lib ctx buf size w).1 = true <-> ret = size)
  /\ (prvSendPackets lib ctx buf size w).2
     = w ++ [CallSend (socket p) (take (Z.to_nat size) buf) size].
Proof.
  intros Hp Hsize ret Hret.
  rewrite (prvSendPackets_valid _ _ p) by (done || lia).
  cbn [fst snd]. split; [|done]. fold ret. rewrite Z.eqb_eq.
  unfold to_size_t.
  destruct (decide (0 <= ret)) as [Hpos|Hneg].
  - by rewrite Z.mod_small by lia.
  - rewrite <- (Z_mod_plus_full ret 1 (2 ^ 32)), Z.mod_small by lia. lia.
Qed.

(** X5.  With a NULL context or parameter block [prvSendPackets] makes no
    library call, and it reports failure for every size but one: the -1 of
    the rejection, compared as a [size_t], equals the size 2^32 - 1, which
    is then reported as sent. *)
Theorem prvSendPackets_rejected ctx buf size w :
  ctx_params ctx = None ->
  0 <= size < 2 ^ 32 ->
  (prvSendPackets lib ctx buf size w).2 = w
  /\ ((prvSendPackets lib ctx buf size w).1 = true <-> size = 2 ^ 32 - 1).
Proof.
  intros Hp Hsize. unfold prvSendPackets, Plaintext_FreeRTOS_sendTo.
  rewrite Hp. cbn [fst snd]. split; [done|].
  rewrite Z.eqb_eq. unfold to_size_t.
  change (-1 mod 2 ^ 32) with (2 ^ 32 - 1). lia.
Qed.

(** X6.  The return values that [prvRecvPackets] saw, in order: every one but
    the last is a positive count other than the size; on success the last
    is the size, on failure it is zero or negative; and when the fuel runs
    out, every one of the [fuel] receives made was of the first kind. *)
Theorem prvRecvPackets_returns fuel : forall ctx p buf size w res buf' w',
  ctx_params ctx = Some p -> 0 < size < 2 ^ 32 ->
  prvRecvPackets lib fuel ctx buf size w = (res, buf', w') ->
  exists evs,
    w' = w ++ evs
    /\ match res with
       | Some true =>
           exists init,
             recv_returns lib w evs = init ++ [size]
             /\ Forall (retried size) init
       | Some false =>
           exists init r,
             recv_returns lib w evs = init ++ [r]
             /\ r <= 0 /\ Forall (retried size) init
       | None =>
           Forall (retried size) (recv_returns lib w evs)
           /\ length evs = fuel
       end.
Proof.
  induction fuel as [|fuel IH]; intros ctx p buf size w res buf' w' Hp Hsize.
  { intros [= <- <- <-]. exists []. by rewrite app_nil_r. }
  rewrite (prvRecvPackets_turn _ _ _ p) by done. cbv zeta.
  set (e := CallRecv (socket p) buf size).
  destruct (Z.eqb_spec (Sockets_Recv lib w (socket p) buf size).1 size)
    as [Heq|Hne].
  { intros [= <- <- <-]. exists [e]. split; [done|].
    exists []. simpl. by rewrite Heq. }
  destruct (Z.ltb_spec 0 (Sockets_Recv lib w (socket p) buf size).1)
    as [Hpos|Hnon].
  - intros Hrun. apply (IH _ p) in Hrun as (evs & -> & Hres); [|done..].
    exists (e :: evs). rewrite <- app_assoc. split; [done|].
    simpl. destruct res as [[|]|].
    + destruct Hres as (init & -> & Hinit).
      exists ((Sockets_Recv lib w (socket p) buf size).1 :: init).
      split; [done|]. by constructor.
    + destruct Hres as (init & r & -> & Hr & Hinit).
      exists ((Sockets_Recv lib w (socket p) buf size).1 :: init), r.
      split_and!; [done..|]. by constructor.
    + destruct Hres as [Hall <-]. split; [|done]. by constructor.
  - intros [= <- <- <-]. exists [e]. split; [done|].
    exists [], (Sockets_Recv lib w (socket p) buf size).1. by simpl.
Qed.

(** X7.  With a NULL context or parameter block, or with size zero,
    [prvRecvPackets] makes no library call and leaves the buffer alone; it
    fails, except for the size -1, which equals the -1 of the rejection. *)
Theorem prvRecvPackets_rejected fuel ctx buf size w :
  ctx_params ctx = None \/ size = 0 ->
  prvRecvPackets lib (S fuel) ctx buf size w = (Some (size =? -1), buf, w).
Proof.
  intros Hrej. simpl. unfold Plaintext_FreeRTOS_recvFrom.
  destruct (ctx_params ctx) as [p|]; simpl.
  - destruct Hrej as [Hnull| ->]; done.
  - by destruct size as [|q|[q|q|]].
Qed.

End TransportMore.

(** ** The echo loop on particular networks *)

Section EchoMore.

Variable lib : SocketsLib.
Variable ECHO_BUFFER_MAX_SIZE : Z.
Hypothesis MAX_range : 0 <= ECHO_BUFFER_MAX_SIZE < 2 ^ 31 - 1.

Lemma loop_unfold fuel ctx size fc st :
  loop lib ECHO_BUFFER_MAX_SIZE (S fuel) ctx size fc st
  = if size <=? ECHO_BUFFER_MAX_SIZE then
      match loop_body lib ECHO_BUFFER_MAX_SIZE fuel ctx size fc st with
      | (Break result, st') => (Some result, st')
      | (Next size' fc', st') =>
          loop lib ECHO_BUFFER_MAX_SIZE fuel ctx size' fc' st'
      | (Stuck, st') => (None, st')
      end
    else (Some true, st).
Proof. done. Qed.

Lemma loop_body_break fuel ctx size fc st r st' :
  loop_body lib ECHO_BUFFER_MAX_SIZE fuel ctx size fc st = (Break r, st') ->
  r = false.
Proof.
  unfold loop_body.
  destruct (prvSendPackets _ _ _ _ _) as [[|] w1]; cbn [negb];
    [|by intros [= <- _]].
  destruct (prvRecvPackets _ _ _ _ _ _) as [[[[|]|] rb] w2]; [| |done].
  - destruct (_ =? 0); [done|by intros [= <- _]].
  - destruct (_ <? _); [by intros [= <- _]|done].
Qed.

(** One round when nothing comes back. *)
Lemma loop_body_lost fuel ctx p size fc st :
  sends_succeed lib -> recvs_lost lib ->
  ctx_params ctx = Some p ->
  0 < size <= ECHO_BUFFER_MAX_SIZE ->
  exists rb,
    loop_body lib ECHO_BUFFER_MAX_SIZE (S fuel) ctx size fc st
    = (if ECHO_MAX_RETRY_COUNT <? to_uint16 (fc + 1)
       then Break false else Next size (to_uint16 (fc + 1)),
       {| xEchoTestBuffer :=
            {| sendBuf := sendBuf (xEchoTestBuffer st); recvBuf := rb |};
          world :=
            world st
            ++ [CallSend (socket p)
                         (take (Z.to_nat size) (sendBuf (xEchoTestBuffer st)))
                         size;
                CallRecv (socket p) (recvBuf (xEchoTestBuffer st)) size] |}).
Proof.
  intros Hsend Hlost Hp Hsize. unfold loop_body.
  rewrite to_size_t_small by lia.
  rewrite (prvSendPackets_valid _ _ p) by (done || lia).
  rewrite Hsend, to_size_t_small, Z.eqb_refl by lia. cbn [negb].
  rewrite (prvRecvPackets_turn _ _ _ p) by (done || lia). cbv zeta.
  set (w1 := world st ++ [_]).
  pose proof (Hlost w1 (socket p) (recvBuf (xEchoTestBuffer st)) size) as Hr.
  destruct (Z.eqb_spec (Sockets_Recv lib w1 (socket p)
              (recvBuf (xEchoTestBuffer st)) size).1 size); [lia|].
  destruct (Z.ltb_spec 0 (Sockets_Recv lib w1 (socket p)
              (recvBuf (xEchoTestBuffer st)) size).1); [lia|].
  unfold w1. rewrite <- app_assoc. simpl.
  destruct (_ <? to_uint16 _); eauto.
Qed.

Lemma loop_lost fuel ctx p size : forall fc st,
  sends_succeed lib -> recvs_lost lib ->
  ctx_params ctx = Some p ->
  0 < size <= ECHO_BUFFER_MAX_SIZE ->
  0 <= fc <= ECHO_MAX_RETRY_COUNT ->
  (Z.to_nat (ECHO_MAX_RETRY_COUNT + 1 - fc) < fuel)%nat ->
  exists st',
    loop lib ECHO_BUFFER_MAX_SIZE fuel ctx size fc st = (Some false, st')
    /\ exists evs,
        world st' = world st ++ evs
        /\ send_sizes evs
           = replicate (Z.to_nat (ECHO_MAX_RETRY_COUNT + 1 - fc)) size
        /\ count_calls is_recv evs
           = Z.to_nat (ECHO_MAX_RETRY_COUNT + 1 - fc).
Proof.
  unfold ECHO_MAX_RETRY_COUNT.
  induction fuel as [|fuel IH];
    intros fc st Hsend Hlost Hp Hsize Hfc Hfuel; [lia|].
  rewrite loop_unfold.
  destruct (Z.leb_spec size ECHO_BUFFER_MAX_SIZE); [|lia].
  destruct fuel as [|fuel]; [lia|].
  destruct (loop_body_lost fuel ctx p size fc st) as [rb ->]; [done..|].
  unfold ECHO_MAX_RETRY_COUNT. rewrite to_uint16_small by lia.
  set (st1 := Build_EchoState _ _).
  destruct (Z.ltb_spec 10 (fc + 1)) as [Hlast|Hmore].
  - exists st1. split; [done|]. eexists. split; [done|].
    replace (10 + 1 - fc) with 1 by lia. done.
  - destruct (IH (fc + 1) st1) as (st' & -> & evs & Hw & Hsz & Hcnt);
      [done..|lia|lia|].
    exists st'. split; [done|]. rewrite Hw. simpl. eexists.
    rewrite <- app_assoc. split; [done|].
    rewrite send_sizes_app, count_calls_app, Hsz, Hcnt.
    replace (Z.to_nat (10 + 1 - fc)) with (S (Z.to_nat (10 + 1 - (fc + 1))))
      by lia.
    done.
Qed.

(** X8.  When every send goes out and no datagram ever comes back, the loop
    gives up on the first packet size: it returns failure after exactly
    [ECHO_MAX_RETRY_COUNT + 1] rounds, each a send of 10 bytes and one
    receive. *)
Theorem retries_exhausted fuel ctx p st :
  sends_succeed lib -> recvs_lost lib ->
  ctx_params ctx = Some p ->
  10 <= ECHO_BUFFER_MAX_SIZE ->
  (Z.to_nat (ECHO_MAX_RETRY_COUNT + 1) < fuel)%nat ->
  exists st',
    prvLoopSendAndReceive lib ECHO_BUFFER_MAX_SIZE fuel ctx st
    = (Some false, st')
    /\ exists evs,
        world st' = world st ++ evs
        /\ send_sizes evs = replicate (Z.to_nat (ECHO_MAX_RETRY_COUNT + 1)) 10
        /\ count_calls is_recv evs = Z.to_nat (ECHO_MAX_RETRY_COUNT + 1).
Proof.
  intros Hsend Hlost Hp Hmax Hfuel. unfold prvLoopSendAndReceive.
  destruct (loop_lost fuel ctx p 10 0 st) as (st' & Hrun & evs & Hw & Hs & Hc);
    [done..|lia|unfold ECHO_MAX_RETRY_COUNT; lia| |].
  { by rewrite Z.sub_0_r. }
  rewrite Z.sub_0_r in Hs, Hc. eauto 10.
Qed.

(** X9.  A send that does not go out whole ends the loop at once with failure:
    one library call, no receive, no retry, the buffers as they were.  With
    a NULL context or parameter block there is not even that call. *)
Theorem send_failure_aborts fuel ctx st :
  10 <= ECHO_BUFFER_MAX_SIZE ->
  (forall p,
      ctx_params ctx = Some p ->
      to_size_t (Sockets_Send lib (world st) (socket p)
                   (take 10 (sendBuf (xEchoTestBuffer st))) 10) <> 10 ->
      prvLoopSendAndReceive lib ECHO_BUFFER_MAX_SIZE (S fuel) ctx st
      = (Some false,
         {| xEchoTestBuffer := xEchoTestBuffer st;
            world := world st
                     ++ [CallSend (socket p)
                           (take 10 (sendBuf (xEchoTestBuffer st))) 10] |}))
  /\ (ctx_params ctx = None ->
      prvLoopSendAndReceive lib ECHO_BUFFER_MAX_SIZE (S fuel) ctx st
      = (Some false, st)).
Proof.
  intros Hmax. unfold prvLoopSendAndReceive. rewrite loop_unfold.
  destruct (Z.leb_spec 10 ECHO_BUFFER_MAX_SIZE); [|lia].
  unfold loop_body. rewrite to_size_t_small by lia. split.
  - intros p Hp Hret. rewrite (prvSendPackets_valid _ _ p) by done.
    change (Z.to_nat 10) with 10%nat.
    by destruct (Z.eqb_spec (to_size_t (Sockets_Send lib (world st) (socket p)
                    (take 10 (sendBuf (xEchoTestBuffer st))) 10)) 10).
  - intros Hp. rewrite prvSendPackets_null by (done || lia).
    cbn [negb]. by destruct st.
Qed.

(** X10.  A datagram of the right length but with other bytes than those sent is
    not retried: the loop ends at once with failure, after one send and one
    receive, and leaves what it received in the receive buffer. *)
Theorem corrupted_echo_aborts fuel ctx p st :
  ctx_params ctx = Some p ->
  10 <= ECHO_BUFFER_MAX_SIZE ->
  length (sendBuf (xEchoTestBuffer st)) = Z.to_nat ECHO_BUFFER_MAX_SIZE ->
  length (recvBuf (xEchoTestBuffer st)) = Z.to_nat ECHO_BUFFER_MAX_SIZE ->
  let payload := take 10 (sendBuf (xEchoTestBuffer st)) in
  let w1 := world st ++ [CallSend (socket p) payload 10] in
  let r := Sockets_Recv lib w1 (socket p) (recvBuf (xEchoTestBuffer st)) 10 in
  let rb := buf_write (take 10 r.2) (recvBuf (xEchoTestBuffer st)) in
  to_size_t (Sockets_Send lib (world st) (socket p) payload 10) = 10 ->
  r.1 = 10 ->
  take 10 rb <> payload ->
  prvLoopSendAndReceive lib ECHO_BUFFER_MAX_SIZE (S (S fuel)) ctx st
  = (Some false,
     {| xEchoTestBuffer :=
          {| sendBuf := sendBuf (xEchoTestBuffer st); recvBuf := rb |};
        world := w1 ++ [CallRecv (socket p) (recvBuf (xEchoTestBuffer st)) 10] |}).
Proof.
  intros Hp Hmax Hls Hlr payload w1 r rb Hsent Hlen Hdiff.
  unfold prvLoopSendAndReceive. rewrite loop_unfold.
  destruct (Z.leb_spec 10 ECHO_BUFFER_MAX_SIZE); [|lia].
  unfold loop_body. rewrite to_size_t_small by lia.
  rewrite (prvSendPackets_valid _ _ p) by done.
  change (Z.to_nat 10) with 10%nat. fold payload.
  rewrite Hsent. cbn [Z.eqb Pos.eqb negb]. fold w1.
  rewrite (prvRecvPackets_turn _ _ _ p) by done. cbv zeta.
  change (Z.to_nat 10) with 10%nat. fold r. rewrite Hlen. fold rb.
  cbn [Z.eqb Pos.eqb].
  destruct (Z.eqb_spec (memcmp (sendBuf (xEchoTestBuffer st)) rb 10) 0)
    as [Heq|Hne]; [|done].
  exfalso. apply Hdiff. symmetry.
  apply memcmp_zero_iff in Heq; [done|lia|].
  unfold rb. rewrite length_buf_write. lia.
Qed.

End EchoMore.

(** ** The echo loop on any network *)

Lemma recvs_follow_send_weaken w : forall cur,
  recvs_follow_send None w -> recvs_follow_send cur w.
Proof.
  destruct w as [|[] w]; simpl; try done. by intros cur [? _].
Qed.

Lemma recvs_follow_send_recvs n recvs rest :
  Forall (fun e => is_recv_of n e = true) recvs ->
  recvs_follow_send (Some n) rest ->
  recvs_follow_send (Some n) (recvs ++ rest).
Proof.
  intros Hall Hrest. induction Hall as [|e recvs He _ IH]; [done|].
  destruct e; try done. simpl in *. apply Z.eqb_eq in He as ->. done.
Qed.

Section EchoAnyNetwork.

Variable lib : SocketsLib.
Variable ECHO_BUFFER_MAX_SIZE : Z.
Hypothesis MAX_range : 0 <= ECHO_BUFFER_MAX_SIZE < 2 ^ 31 - 1.

Lemma loop_sends_sorted fuel : forall ctx size fc st,
  0 < size ->
  exists evs,
    world (loop lib ECHO_BUFFER_MAX_SIZE fuel ctx size fc st).2
    = world st ++ evs
    /\ Forall (fun n => size <= n <= ECHO_BUFFER_MAX_SIZE) (send_sizes evs)
    /\ StronglySorted Z.le (send_sizes evs)
    /\ ((loop lib ECHO_BUFFER_MAX_SIZE fuel ctx size fc st).1 = Some true ->
        forall n, size <= n <= ECHO_BUFFER_MAX_SIZE -> n ∈ send_sizes evs).
Proof.
  induction fuel as [|fuel IH]; intros ctx size fc st Hsize.
  { exists []. rewrite app_nil_r. split_and!; [done|done|constructor|done]. }
  rewrite loop_unfold.
  destruct (Z.leb_spec size ECHO_BUFFER_MAX_SIZE) as [Hle|Hgt].
  2:{ exists []. rewrite app_nil_r.
      split_and!; [done|done|constructor|]. intros _ n Hn. lia. }
  destruct (loop_body _ _ _ _ _ _ _) as [s st'] eqn:Hbody.
  pose proof Hbody as Hshape.
  apply loop_body_shape in Hshape
      as (_ & _ & evs & Hw & Hround & Hnext); [|done|lia].
  assert (send_sizes evs = [] \/ send_sizes evs = [size]) as Hsz.
  { destruct Hround as [->|(sock & recvs & -> & Hall & _)]; [by left|].
    right. apply is_recv_of_is_recv in Hall.
    change (send_sizes (?e :: recvs)) with (size :: send_sizes recvs).
    by rewrite send_sizes_recvs. }
  assert (Forall (fun n => size <= n <= ECHO_BUFFER_MAX_SIZE) (send_sizes evs)
          /\ StronglySorted Z.le (send_sizes evs)) as [Hin Hsorted].
  { destruct Hsz as [->| ->]; split; repeat constructor; lia. }
  destruct s as [r|size' fc'|]; simpl.
  - exists evs. split_and!; [done..|].
    apply loop_body_break in Hbody as ->. done.
  - destruct (Hnext size' fc' eq_refl) as ((sock & rest & Hevs) & _ & Hs').
    destruct Hsz as [Hnil|Hone]; [by rewrite Hevs in Hnil|].
    destruct (IH ctx size' fc' st') as (evs1 & Hw1 & Hin1 & Hsorted1 & Hcov);
      [lia|].
    exists (evs ++ evs1). rewrite Hw1, Hw, <- app_assoc, send_sizes_app, Hone.
    split_and!; [done| | |].
    + constructor; [lia|]. eapply Forall_impl; [exact Hin1|].
      intros n Hn. simpl in Hn. lia.
    + constructor; [done|]. eapply Forall_impl; [exact Hin1|].
      intros n Hn. simpl in Hn. lia.
    + intros Hres n Hn. destruct (decide (n = size)) as [->|Hne].
      * by left.
      * right. apply Hcov; [done|lia].
  - exists evs. by split_and!.
Qed.

Lemma loop_recvs_follow_send fuel : forall ctx size fc st,
  0 < size ->
  exists evs,
    world (loop lib ECHO_BUFFER_MAX_SIZE fuel ctx size fc st).2
    = world st ++ evs
    /\ recvs_follow_send None evs.
Proof.
  induction fuel as [|fuel IH]; intros ctx size fc st Hsize.
  { exists []. by rewrite app_nil_r. }
  rewrite loop_unfold.
  destruct (Z.leb_spec size ECHO_BUFFER_MAX_SIZE) as [Hle|Hgt].
  2:{ exists []. by rewrite app_nil_r. }
  destruct (loop_body _ _ _ _ _ _ _) as [s st'] eqn:Hbody.
  apply loop_body_shape in Hbody
      as (_ & _ & evs & Hw & Hround & Hnext); [|done|lia].
  assert (forall rest,
             recvs_follow_send None rest ->
             recvs_follow_send None (evs ++ rest)) as Hone.
  { intros rest Hrest.
    destruct Hround as [->|(sock & recvs & -> & Hall & _)]; [done|].
    simpl. apply recvs_follow_send_recvs; [done|].
    by apply recvs_follow_send_weaken. }
  destruct s as [r|size' fc'|]; simpl.
  - exists evs. split; [done|]. rewrite <- (app_nil_r evs). by apply Hone.
  - destruct (Hnext size' fc' eq_refl) as (_ & _ & Hs').
    destruct (IH ctx size' fc' st') as (evs1 & Hw1 & Hrest); [lia|].
    exists (evs ++ evs1). rewrite Hw1, Hw, <- app_assoc. split; [done|].
    by apply Hone.
  - exists evs. split; [done|]. rewrite <- (app_nil_r evs). by apply Hone.
Qed.

(** X11.  On any network the sizes of the datagrams the loop sends never decrease
    and lie between 10 and [ECHO_BUFFER_MAX_SIZE]; and the loop returns
    success only after it has sent a datagram of every one of these
    sizes. *)
Theorem success_covers_all_sizes fuel ctx st :
  exists evs,
    world (prvLoopSendAndReceive lib ECHO_BUFFER_MAX_SIZE fuel ctx st).2
    = world st ++ evs
    /\ Forall (fun n => 10 <= n <= ECHO_BUFFER_MAX_SIZE) (send_sizes evs)
    /\ StronglySorted Z.le (send_sizes evs)
    /\ ((prvLoopSendAndReceive lib ECHO_BUFFER_MAX_SIZE fuel ctx st).1
        = Some true ->
        forall n, 10 <= n <= ECHO_BUFFER_MAX_SIZE -> n ∈ send_sizes evs).
Proof. unfold prvLoopSendAndReceive. by apply loop_sends_sorted. Qed.

(** X12.  On any network the loop calls nothing but send and receive, it starts
    with a send, and every receive asks for exactly as many bytes as the
    latest send transmitted. *)
Theorem receives_follow_sends fuel ctx st :
  exists evs,
    world (prvLoopSendAndReceive lib ECHO_BUFFER_MAX_SIZE fuel ctx st).2
    = world st ++ evs
    /\ recvs_follow_send None evs.
Proof. unfold prvLoopSendAndReceive. by apply loop_recvs_follow_send. Qed.

End EchoAnyNetwork.

(** ** The test data on a whole array *)

(** X13.  On an array of exactly [n] bytes [prvInitializeTestData] overwrites
    everything: whatever the array held, the result is the pattern
    0,1,...,255,0,1,..., which consists of bytes and repeats with period
    256; initialising twice changes nothing. *)
Theorem prvInitializeTestData_overwrites fuel buf n :
  0 <= n < 2 ^ 32 -> length buf = Z.to_nat n -> (Z.to_nat n < fuel)%nat ->
  prvInitializeTestData fuel buf n = Ret (test_pattern n)
  /\ prvInitializeTestData fuel (test_pattern n) n = Ret (test_pattern n)
  /\ Forall (fun b => 0 <= b < 256) (test_pattern n)
  /\ (forall i : nat,
         Z.of_nat i + 256 < n ->
         test_pattern n !! (i + 256)%nat = test_pattern n !! i).
Proof.
  intros Hn Hlen Hfuel. split_and!.
  - by apply prvInitializeTestData_full.
  - apply prvInitializeTestData_full; [done| |done].
    apply length_test_pattern.
  - unfold test_pattern. apply Forall_fmap, Forall_forall.
    intros x _. unfold to_uint8. simpl. apply Z.mod_pos_bound. lia.
  - intros i Hi. rewrite !lookup_test_pattern by lia. f_equal.
    rewrite Nat2Z.inj_add. change (Z.of_nat 256) with (1 * 256).
    apply Z_mod_plus_full.
Qed.

(** ** The task as a whole *)

Section EchoTaskMore.

Variable lib : SocketsLib.
Variable ECHO_BUFFER_MAX_SIZE : Z.
Hypothesis MAX_range : 0 <= ECHO_BUFFER_MAX_SIZE < 2 ^ 31 - 1.

(** The task once both arrays are initialised: connect, run the loop if the
    connect succeeded, disconnect. *)
Lemma RunEchoTask_unfold fuel st :
  length (sendBuf (xEchoTestBuffer st)) = Z.to_nat ECHO_BUFFER_MAX_SIZE ->
  length (recvBuf (xEchoTestBuffer st)) = Z.to_nat ECHO_BUFFER_MAX_SIZE ->
  let r := Sockets_Udp_Connect lib (world st) 0 ECHO_SERVER_ENDPOINT
             ECHO_SERVER_PORT ECHO_SEND_RECV_TIMEOUT_MS
             ECHO_SEND_RECV_TIMEOUT_MS in
  let ctx := Some {| pParams := Some {| socket := r.2 |} |} in
  let st1 :=
    {| xEchoTestBuffer :=
         {| sendBuf := test_pattern ECHO_BUFFER_MAX_SIZE;
            recvBuf := test_pattern ECHO_BUFFER_MAX_SIZE |};
       world := world st
                ++ [CallConnect 0 ECHO_SERVER_ENDPOINT ECHO_SERVER_PORT
                      ECHO_SEND_RECV_TIMEOUT_MS ECHO_SEND_RECV_TIMEOUT_MS] |} in
  let run := if r.1 =? 0
             then prvLoopSendAndReceive lib ECHO_BUFFER_MAX_SIZE fuel ctx st1
             else (Some false, st1) in
  let done :=
    match run.1 with
    | None => (None, run.2)
    | Some _ =>
        (run.1,
         {| xEchoTestBuffer := xEchoTestBuffer run.2;
            world := world run.2
                     ++ if r.2 =? SOCKETS_INVALID_SOCKET lib then []
                        else [CallDisconnect r.2] |})
    end in
  ((Z.to_nat ECHO_BUFFER_MAX_SIZE < fuel)%nat ->
   RunEchoTask lib ECHO_BUFFER_MAX_SIZE fuel st = done)
  /\ (RunEchoTask lib ECHO_BUFFER_MAX_SIZE fuel st = (None, st)
      \/ RunEchoTask lib ECHO_BUFFER_MAX_SIZE fuel st = done).
Proof.
  intros Hls Hlr r ctx st1 run done'.
  assert (forall sb rb,
             sb = test_pattern ECHO_BUFFER_MAX_SIZE ->
             rb = test_pattern ECHO_BUFFER_MAX_SIZE ->
             (let '(status, ctx, w1) :=
                prvTransportNetworkConnect lib
                  (Some {| pParams := Some {| socket := 0 |} |}) (world st) in
              let st1 := {| xEchoTestBuffer := {| sendBuf := sb; recvBuf := rb |};
                            world := w1 |} in
              let '(status, st2) :=
                if status
                then prvLoopSendAndReceive lib ECHO_BUFFER_MAX_SIZE fuel ctx st1
                else (Some false, st1) in
              match status with
              | None => (None, st2)
              | Some _ =>
                  (status,
                   {| xEchoTestBuffer := xEchoTestBuffer st2;
                      world := prvTransportNetworkDisconnect lib ctx
                                 (world st2) |})
              end) = done') as Hrest.
  { intros sb rb -> ->. unfold done', run.
    unfold prvTransportNetworkConnect, Plaintext_FreeRTOS_UDP_Connect.
    cbn [ctx_params pParams socket]. fold r.
    destruct r as [code sock] eqn:Hr. cbn [fst snd] in *.
    assert (forall w, prvTransportNetworkDisconnect lib ctx w
                      = w ++ if sock =? SOCKETS_INVALID_SOCKET lib then []
                             else [CallDisconnect sock]) as Hdisc.
    { intros w. unfold prvTransportNetworkDisconnect,
        Plaintext_FreeRTOS_UDP_Disconnect, ctx. cbn [ctx_params pParams socket].
      destruct (sock =? _); [by rewrite app_nil_r|done]. }
    destruct (code =? 0); cbn [negb].
    - fold ctx st1.
      destruct (prvLoopSendAndReceive _ _ _ _ _) as [[b|] st2];
        cbn [fst snd]; [|done].
      by rewrite Hdisc.
    - change (Some {| pParams := Some {| socket := sock |} |}) with ctx.
      by rewrite Hdisc. }
  unfold RunEchoTask. split.
  - intros Hfuel. rewrite !prvInitializeTestData_full by (done || lia).
    by apply Hrest.
  - destruct (prvInitializeTestData fuel (sendBuf _) _) as [sb| |] eqn:Hsb;
      [|by left..].
    destruct (prvInitializeTestData fuel (recvBuf _) _) as [rb| |] eqn:Hrb;
      [|by left..].
    apply prvInitializeTestData_Ret in Hsb; [|lia|done].
    apply prvInitializeTestData_Ret in Hrb; [|lia|done].
    right. by apply Hrest.
Qed.

(** X14.  When the connect fails the task sends and receives nothing: it reports
    failure, and its only library calls are the connect, with the
    configured endpoint, port and timeouts, and the disconnect of the handle
    that the connect left in the context (none if that is the invalid-socket
    sentinel).  Both arrays hold the test pattern. *)
Theorem connect_failure_skips_loop fuel st :
  length (sendBuf (xEchoTestBuffer st)) = Z.to_nat ECHO_BUFFER_MAX_SIZE ->
  length (recvBuf (xEchoTestBuffer st)) = Z.to_nat ECHO_BUFFER_MAX_SIZE ->
  (Z.to_nat ECHO_BUFFER_MAX_SIZE < fuel)%nat ->
  let r := Sockets_Udp_Connect lib (world st) 0 ECHO_SERVER_ENDPOINT
             ECHO_SERVER_PORT ECHO_SEND_RECV_TIMEOUT_MS
             ECHO_SEND_RECV_TIMEOUT_MS in
  r.1 <> 0 ->
  RunEchoTask lib ECHO_BUFFER_MAX_SIZE fuel st
  = (Some false,
     {| xEchoTestBuffer :=
          {| sendBuf := test_pattern ECHO_BUFFER_MAX_SIZE;
             recvBuf := test_pattern ECHO_BUFFER_MAX_SIZE |};
        world :=
          world st
          ++ CallConnect 0 ECHO_SERVER_ENDPOINT ECHO_SERVER_PORT
               ECHO_SEND_RECV_TIMEOUT_MS ECHO_SEND_RECV_TIMEOUT_MS
             :: (if r.2 =? SOCKETS_INVALID_SOCKET lib then []
                 else [CallDisconnect r.2]) |}).
Proof.
  intros Hls Hlr Hfuel r Hcode.
  pose proof (RunEchoTask_unfold fuel st Hls Hlr) as Hu. cbv zeta in Hu.
  destruct Hu as [Hrun _]. rewrite Hrun by done. clear Hrun.
  fold r. destruct (Z.eqb_spec r.1 0); [done|].
  cbn [fst snd xEchoTestBuffer world]. by rewrite <- app_assoc.
Qed.

(** X15.  Against a faithful echo server, after a successful connect, the task
    passes: its library calls are the connect, then the sends of sizes
    10, 11, ..., [ECHO_BUFFER_MAX_SIZE] with their receives, then the
    disconnect; at the end the send buffer holds the test pattern. *)
Theorem task_passes_on_echo fuel st :
  length (sendBuf (xEchoTestBuffer st)) = Z.to_nat ECHO_BUFFER_MAX_SIZE ->
  length (recvBuf (xEchoTestBuffer st)) = Z.to_nat ECHO_BUFFER_MAX_SIZE ->
  (Z.to_nat ECHO_BUFFER_MAX_SIZE < fuel)%nat ->
  sends_succeed lib -> recvs_echo lib ->
  let r := Sockets_Udp_Connect lib (world st) 0 ECHO_SERVER_ENDPOINT
             ECHO_SERVER_PORT ECHO_SEND_RECV_TIMEOUT_MS
             ECHO_SEND_RECV_TIMEOUT_MS in
  r.1 = 0 ->
  exists st' mid,
    RunEchoTask lib ECHO_BUFFER_MAX_SIZE fuel st = (Some true, st')
    /\ sendBuf (xEchoTestBuffer st') = test_pattern ECHO_BUFFER_MAX_SIZE
    /\ world st'
       = world st
         ++ CallConnect 0 ECHO_SERVER_ENDPOINT ECHO_SERVER_PORT
              ECHO_SEND_RECV_TIMEOUT_MS ECHO_SEND_RECV_TIMEOUT_MS
            :: mid
         ++ (if r.2 =? SOCKETS_INVALID_SOCKET lib then []
             else [CallDisconnect r.2])
    /\ send_sizes mid = seqZ 10 (ECHO_BUFFER_MAX_SIZE - 9).
Proof.
  intros Hls Hlr Hfuel Hsend Hecho r Hcode.
  pose proof (RunEchoTask_unfold fuel st Hls Hlr) as Hu. cbv zeta in Hu.
  destruct Hu as [Hrun _]. rewrite Hrun by done. clear Hrun.
  fold r. rewrite Hcode. cbn [Z.eqb].
  set (ctx := Some _). set (st1 := Build_EchoState _ _).
  destruct (loop_echo lib ECHO_BUFFER_MAX_SIZE MAX_range fuel ctx
              {| socket := r.2 |} 10 0 st1)
    as (st2 & Hrun & mid & Hw & Hsz);
    [done|done|done|lia|apply length_test_pattern|apply length_test_pattern
    |lia|].
  unfold prvLoopSendAndReceive. rewrite Hrun. cbn [fst snd].
  eexists _, mid. split; [done|]. cbn [xEchoTestBuffer world].
  split_and!.
  - pose proof (loop_frame lib ECHO_BUFFER_MAX_SIZE MAX_range fuel ctx 10 0 st1)
      as [Hsb _]; [lia|].
    by rewrite Hrun in Hsb.
  - rewrite Hw. unfold st1. cbn [world]. by rewrite <- !app_assoc.
  - rewrite Hsz. f_equal. lia.
Qed.

(** X16.  On any network, whenever the task comes to its end, its library calls
    are: first the connect with the configured endpoint, port and timeouts;
    then only sends and receives, each receive asking for the size of the
    latest send; last the disconnect of the handle that the connect left in
    the context (none if that is the invalid-socket sentinel).  The task
    disconnects whether the demo passed or failed. *)
Theorem task_connects_first_disconnects_last fuel st b :
  length (sendBuf (xEchoTestBuffer st)) = Z.to_nat ECHO_BUFFER_MAX_SIZE ->
  length (recvBuf (xEchoTestBuffer st)) = Z.to_nat ECHO_BUFFER_MAX_SIZE ->
  (RunEchoTask lib ECHO_BUFFER_MAX_SIZE fuel st).1 = Some b ->
  let r := Sockets_Udp_Connect lib (world st) 0 ECHO_SERVER_ENDPOINT
             ECHO_SERVER_PORT ECHO_SEND_RECV_TIMEOUT_MS
             ECHO_SEND_RECV_TIMEOUT_MS in
  exists mid,
    world (RunEchoTask lib ECHO_BUFFER_MAX_SIZE fuel st).2
    = world st
      ++ CallConnect 0 ECHO_SERVER_ENDPOINT ECHO_SERVER_PORT
           ECHO_SEND_RECV_TIMEOUT_MS ECHO_SEND_RECV_TIMEOUT_MS
         :: mid
      ++ (if r.2 =? SOCKETS_INVALID_SOCKET lib then []
          else [CallDisconnect r.2])
    /\ recvs_follow_send None mid.
Proof.
  intros Hls Hlr Hres r.
  pose proof (RunEchoTask_unfold fuel st Hls Hlr) as Hu. cbv zeta in Hu.
  destruct Hu as [_ [Hnone|Hrun]].
  { by rewrite Hnone in Hres. }
  rewrite Hrun in Hres |- *. clear Hrun. fold r in Hres |- *.
  set (ctx := Some _) in *. set (st1 := Build_EchoState _ _) in *.
  destruct (r.1 =? 0).
  - destruct (loop_recvs_follow_send lib ECHO_BUFFER_MAX_SIZE MAX_range fuel
                ctx 10 0 st1) as (mid & Hw & Hmid); [lia|].
    fold (prvLoopSendAndReceive lib ECHO_BUFFER_MAX_SIZE fuel ctx st1) in Hw.
    destruct (prvLoopSendAndReceive _ _ _ _ _) as [[b'|] st2]; [|done].
    cbn [fst snd xEchoTestBuffer world] in *. exists mid. split; [|done].
    rewrite Hw. unfold st1. cbn [world]. by rewrite <- !app_assoc.
  - cbn [fst snd xEchoTestBuffer world]. exists []. split; [|done].
    unfold st1. cbn [world]. by rewrite <- !app_assoc.
Qed.

(** X17.  On any network the task reports a pass only if the connect succeeded
    and a datagram of every size from 10 to [ECHO_BUFFER_MAX_SIZE] was
    sent. *)
Theorem task_pass_is_earned fuel st :
  length (sendBuf (xEchoTestBuffer st)) = Z.to_nat ECHO_BUFFER_MAX_SIZE ->
  length (recvBuf (xEchoTestBuffer st)) = Z.to_nat ECHO_BUFFER_MAX_SIZE ->
  (RunEchoTask lib ECHO_BUFFER_MAX_SIZE fuel st).1 = Some true ->
  (Sockets_Udp_Connect lib (world st) 0 ECHO_SERVER_ENDPOINT
     ECHO_SERVER_PORT ECHO_SEND_RECV_TIMEOUT_MS ECHO_SEND_RECV_TIMEOUT_MS).1
  = 0
  /\ exists evs,
      world (RunEchoTask lib ECHO_BUFFER_MAX_SIZE fuel st).2 = world st ++ evs
      /\ forall n, 10 <= n <= ECHO_BUFFER_MAX_SIZE -> n ∈ send_sizes evs.
Proof.
  intros Hls Hlr Hres.
  pose proof (RunEchoTask_unfold fuel st Hls Hlr) as Hu. cbv zeta in Hu.
  destruct Hu as [_ [Hnone|Hrun]].
  { by rewrite Hnone in Hres. }
  rewrite Hrun in Hres |- *. clear Hrun.
  set (r := Sockets_Udp_Connect _ _ _ _ _ _ _) in *.
  set (ctx := Some _) in *. set (st1 := Build_EchoState _ _) in *.
  destruct (Z.eqb_spec r.1 0) as [Hcode|Hcode]; [|done].
  split; [done|].
  destruct (loop_sends_sorted lib ECHO_BUFFER_MAX_SIZE MAX_range fuel
              ctx 10 0 st1) as (mid & Hw & _ & _ & Hcov); [lia|].
  fold (prvLoopSendAndReceive lib ECHO_BUFFER_MAX_SIZE fuel ctx st1) in Hw, Hcov.
  destruct (prvLoopSendAndReceive _ _ _ _ _) as [[b'|] st2]; [|done].
  cbn [fst snd xEchoTestBuffer world] in *.
  injection Hres as ->. eexists. rewrite Hw. unfold st1. cbn [world].
  rewrite <- !app_assoc. split; [done|].
  intros n Hn. change (?a ++ ?b :: ?c) with (a ++ [b] ++ c).
  rewrite !send_sizes_app. apply elem_of_app. right.
  apply elem_of_app. left. by apply Hcov.
Qed.

(** X18.  When [ECHO_BUFFER_MAX_SIZE] is below 10 the loop body never runs: after
    a successful connect the task reports a pass on any network, having
    sent and received nothing. *)
Theorem small_buffer_passes_untested fuel st :
  length (sendBuf (xEchoTestBuffer st)) = Z.to_nat ECHO_BUFFER_MAX_SIZE ->
  length (recvBuf (xEchoTestBuffer st)) = Z.to_nat ECHO_BUFFER_MAX_SIZE ->
  (Z.to_nat ECHO_BUFFER_MAX_SIZE < fuel)%nat ->
  ECHO_BUFFER_MAX_SIZE < 10 ->
  let r := Sockets_Udp_Connect lib (world st) 0 ECHO_SERVER_ENDPOINT
             ECHO_SERVER_PORT ECHO_SEND_RECV_TIMEOUT_MS
             ECHO_SEND_RECV_TIMEOUT_MS in
  r.1 = 0 ->
  RunEchoTask lib ECHO_BUFFER_MAX_SIZE fuel st
  = (Some true,
     {| xEchoTestBuffer :=
          {| sendBuf := test_pattern ECHO_BUFFER_MAX_SIZE;
             recvBuf := test_pattern ECHO_BUFFER_MAX_SIZE |};
        world :=
          world st
          ++ CallConnect 0 ECHO_SERVER_ENDPOINT ECHO_SERVER_PORT
               ECHO_SEND_RECV_TIMEOUT_MS ECHO_SEND_RECV_TIMEOUT_MS
             :: (if r.2 =? SOCKETS_INVALID_SOCKET lib then []
                 else [CallDisconnect r.2]) |}).
Proof.
  intros Hls Hlr Hfuel Hsmall r Hcode.
  pose proof (RunEchoTask_unfold fuel st Hls Hlr) as Hu. cbv zeta in Hu.
  destruct Hu as [Hrun _]. rewrite Hrun by done. clear Hrun.
  fold r. rewrite Hcode. cbn [Z.eqb].
  destruct fuel as [|fuel]; [lia|].
  unfold prvLoopSendAndReceive. rewrite loop_unfold.
  destruct (Z.leb_spec 10 ECHO_BUFFER_MAX_SIZE); [lia|].
  cbn [fst snd xEchoTestBuffer world]. by rewrite <- app_assoc.
Qed.

End EchoTaskMore.

(** ** The further properties at concrete inputs *)

Lemma connect_then_disconnect_witness :
  Plaintext_FreeRTOS_UDP_Disconnect lossy_lib
    (Plaintext_FreeRTOS_UDP_Connect lossy_lib connected_ctx
       (Some ECHO_SERVER_ENDPOINT) 9000 5000 5000 []).1.2
    (Plaintext_FreeRTOS_UDP_Connect lossy_lib connected_ctx
       (Some ECHO_SERVER_ENDPOINT) 9000 5000 5000 []).2
  = (PLAINTEXT_TRANSPORT_SUCCESS,
     [CallConnect 1 ECHO_SERVER_ENDPOINT 9000 5000 5000; CallDisconnect 1]).
Proof.
  destruct (connect_then_disconnect lossy_lib connected_ctx {| socket := 1 |}
              ECHO_SERVER_ENDPOINT 9000 5000 5000 [] eq_refl) as (_ & _ & H).
  rewrite H. reflexivity.
Defined.

Lemma disconnect_twice_witness :
  exists p,
    ctx_params connected_ctx = Some p
    /\ [CallDisconnect 1] = [] ++ [CallDisconnect (socket p)]
    /\ Plaintext_FreeRTOS_UDP_Disconnect lossy_lib connected_ctx
         [CallDisconnect 1]
       = (PLAINTEXT_TRANSPORT_SUCCESS,
          [CallDisconnect 1] ++ [CallDisconnect (socket p)]).
Proof.
  apply (disconnect_twice lossy_lib connected_ctx [] [CallDisconnect 1]).
  reflexivity.
Defined.

Lemma test_connect_status_witness :
  TransportTest.prvTransportNetworkConnect lossy_lib connected_ctx
    {| TransportTest.pHostName := None; TransportTest.port := 7 |} []
  = (TransportTest.NETWORK_CONNECT_FAILURE, connected_ctx, []).
Proof.
  destruct (test_connect_status lossy_lib connected_ctx
              {| TransportTest.pHostName := None; TransportTest.port := 7 |} [])
    as [_ H].
  apply H. right. reflexivity.
Defined.

Lemma prvSendPackets_reports_witness :
  ((prvSendPackets (const_send_lib (-5)) connected_ctx [1; 2; 3] 3 []).1 = true
   <-> -5 = 3)
  /\ (prvSendPackets (const_send_lib (-5)) connected_ctx [1; 2; 3] 3 []).2
     = [] ++ [CallSend 1 (take (Z.to_nat 3) [1; 2; 3]) 3].
Proof.
  apply (prvSendPackets_reports (const_send_lib (-5)) connected_ctx
           {| socket := 1 |} [1; 2; 3] 3 []).
  - reflexivity.
  - split; reflexivity.
  - split; [discriminate|reflexivity].
Defined.

Lemma prvSendPackets_rejected_witness :
  (prvSendPackets lossy_lib None [1; 2; 3] 3 []).2 = []
  /\ ((prvSendPackets lossy_lib None [1; 2; 3] 3 []).1 = true
      <-> 3 = 2 ^ 32 - 1).
Proof.
  apply (prvSendPackets_rejected lossy_lib None [1; 2; 3] 3 []).
  - reflexivity.
  - split; [discriminate|reflexivity].
Defined.

Lemma prvRecvPackets_returns_witness :
  exists evs,
    (prvRecvPackets short_then_none_lib 4 connected_ctx [0; 0; 0] 3
                    [CallSend 1 [7; 8; 9] 3]).2
    = [CallSend 1 [7; 8; 9] 3] ++ evs
    /\ exists init r,
        recv_returns short_then_none_lib [CallSend 1 [7; 8; 9] 3] evs
        = init ++ [r]
        /\ r <= 0 /\ Forall (retried 3) init.
Proof.
  apply (prvRecvPackets_returns short_then_none_lib 4 connected_ctx
           {| socket := 1 |} [0; 0; 0] 3 [CallSend 1 [7; 8; 9] 3]
           (Some false)
           (prvRecvPackets short_then_none_lib 4 connected_ctx [0; 0; 0] 3
                           [CallSend 1 [7; 8; 9] 3]).1.2).
  - reflexivity.
  - split; reflexivity.
  - reflexivity.
Defined.

Lemma prvRecvPackets_rejected_witness :
  prvRecvPackets lossy_lib 3 None [0; 0; 0] 3 [] = (Some (3 =? -1), [0; 0; 0], []).
Proof.
  apply (prvRecvPackets_rejected lossy_lib 2 None [0; 0; 0] 3 []).
  left. reflexivity.
Defined.

Lemma recvs_lost_lossy_lib : recvs_lost lossy_lib.
Proof. intros w s buf n. discriminate. Defined.

Lemma sends_succeed_lossy_lib : sends_succeed lossy_lib.
Proof. intros w s payload n. reflexivity. Defined.

Lemma retries_exhausted_witness :
  exists st',
    prvLoopSendAndReceive lossy_lib 12 40 connected_ctx (pattern_state 12)
    = (Some false, st')
    /\ exists evs,
        world st' = world (pattern_state 12) ++ evs
        /\ send_sizes evs = replicate (Z.to_nat (ECHO_MAX_RETRY_COUNT + 1)) 10
        /\ count_calls is_recv evs = Z.to_nat (ECHO_MAX_RETRY_COUNT + 1).
Proof.
  apply (retries_exhausted lossy_lib 12 small_max_size_range 40 connected_ctx
           {| socket := 1 |} (pattern_state 12)
           sends_succeed_lossy_lib recvs_lost_lossy_lib).
  - reflexivity.
  - discriminate.
  - apply Nat.ltb_lt. vm_compute; reflexivity.
Defined.

Lemma send_failure_aborts_witness :
  prvLoopSendAndReceive (const_send_lib (-1)) 12 3 connected_ctx
                        (pattern_state 12)
  = (Some false,
     {| xEchoTestBuffer := xEchoTestBuffer (pattern_state 12);
        world := world (pattern_state 12)
                 ++ [CallSend 1 (take 10 (sendBuf (xEchoTestBuffer
                                                     (pattern_state 12)))) 10] |}).
Proof.
  destruct (send_failure_aborts (const_send_lib (-1)) 12 2 connected_ctx
              (pattern_state 12)) as [H _].
  - discriminate.
  - apply (H {| socket := 1 |}); [reflexivity|discriminate].
Defined.

Lemma corrupted_echo_aborts_witness :
  (prvLoopSendAndReceive garble_lib 12 4 connected_ctx (pattern_state 12)).1
  = Some false.
Proof.
  rewrite (corrupted_echo_aborts garble_lib 12 2 connected_ctx
             {| socket := 1 |} (pattern_state 12)).
  - reflexivity.
  - reflexivity.
  - discriminate.
  - reflexivity.
  - reflexivity.
  - reflexivity.
  - reflexivity.
  - discriminate.
Defined.

Lemma success_covers_all_sizes_witness :
  exists evs,
    world (prvLoopSendAndReceive echo_lib 12 40 connected_ctx
                                 (pattern_state 12)).2
    = world (pattern_state 12) ++ evs
    /\ Forall (fun n => 10 <= n <= 12) (send_sizes evs)
    /\ StronglySorted Z.le (send_sizes evs)
    /\ ((prvLoopSendAndReceive echo_lib 12 40 connected_ctx
                               (pattern_state 12)).1 = Some true ->
        forall n, 10 <= n <= 12 -> n ∈ send_sizes evs).
Proof.
  apply (success_covers_all_sizes echo_lib 12 small_max_size_range 40
           connected_ctx (pattern_state 12)).
Defined.

Lemma receives_follow_sends_witness :
  exists evs,
    world (prvLoopSendAndReceive short_then_none_lib 12 40 connected_ctx
                                 (pattern_state 12)).2
    = world (pattern_state 12) ++ evs
    /\ recvs_follow_send None evs.
Proof.
  apply (receives_follow_sends short_then_none_lib 12 small_max_size_range 40
           connected_ctx (pattern_state 12)).
Defined.

Lemma prvInitializeTestData_overwrites_witness :
  prvInitializeTestData 5 [9; 9; 9] 3 = Ret (test_pattern 3).
Proof.
  destruct (prvInitializeTestData_overwrites 5 [9; 9; 9] 3) as [H _].
  - split; [discriminate|reflexivity].
  - reflexivity.
  - apply Nat.ltb_lt. reflexivity.
  - exact H.
Defined.

Lemma connect_failure_skips_loop_witness :
  RunEchoTask refusing_lib 12 40 (boot_state 12)
  = (Some false,
     {| xEchoTestBuffer :=
          {| sendBuf := test_pattern 12; recvBuf := test_pattern 12 |};
        world := [CallConnect 0 ECHO_SERVER_ENDPOINT ECHO_SERVER_PORT
                    ECHO_SEND_RECV_TIMEOUT_MS ECHO_SEND_RECV_TIMEOUT_MS] |}).
Proof.
  rewrite (connect_failure_skips_loop refusing_lib 12 small_max_size_range 40
             (boot_state 12)).
  - reflexivity.
  - reflexivity.
  - reflexivity.
  - apply Nat.ltb_lt. vm_compute; reflexivity.
  - discriminate.
Defined.

Lemma task_passes_on_echo_witness :
  exists st' mid,
    RunEchoTask echo_lib 12 40 (boot_state 12) = (Some true, st')
    /\ sendBuf (xEchoTestBuffer st') = test_pattern 12
    /\ world st'
       = world (boot_state 12)
         ++ CallConnect 0 ECHO_SERVER_ENDPOINT ECHO_SERVER_PORT
              ECHO_SEND_RECV_TIMEOUT_MS ECHO_SEND_RECV_TIMEOUT_MS
            :: mid ++ [CallDisconnect 1]
    /\ send_sizes mid = seqZ 10 (12 - 9).
Proof.
  apply (task_passes_on_echo echo_lib 12 small_max_size_range 40
           (boot_state 12)).
  - reflexivity.
  - reflexivity.
  - apply Nat.ltb_lt. vm_compute; reflexivity.
  - exact sends_succeed_echo_lib.
  - exact recvs_echo_echo_lib.
  - reflexivity.
Defined.

Lemma task_connects_first_disconnects_last_witness :
  exists mid,
    world (RunEchoTask lossy_lib 12 40 (boot_state 12)).2
    = world (boot_state 12)
      ++ CallConnect 0 ECHO_SERVER_ENDPOINT ECHO_SERVER_PORT
           ECHO_SEND_RECV_TIMEOUT_MS ECHO_SEND_RECV_TIMEOUT_MS
         :: mid ++ [CallDisconnect 1]
    /\ recvs_follow_send None mid.
Proof.
  apply (task_connects_first_disconnects_last lossy_lib 12
           small_max_size_range 40 (boot_state 12) false).
  - reflexivity.
  - reflexivity.
  - vm_compute; reflexivity.
Defined.

Lemma task_pass_is_earned_witness :
  (Sockets_Udp_Connect echo_lib (world (boot_state 12)) 0 ECHO_SERVER_ENDPOINT
     ECHO_SERVER_PORT ECHO_SEND_RECV_TIMEOUT_MS ECHO_SEND_RECV_TIMEOUT_MS).1
  = 0
  /\ exists evs,
      world (RunEchoTask echo_lib 12 40 (boot_state 12)).2
      = world (boot_state 12) ++ evs
      /\ forall n, 10 <= n <= 12 -> n ∈ send_sizes evs.
Proof.
  apply (task_pass_is_earned echo_lib 12 small_max_size_range 40
           (boot_state 12)).
  - reflexivity.
  - reflexivity.
  - vm_compute; reflexivity.
Defined.

Lemma tiny_max_size_range : 0 <= 5 < 2 ^ 31 - 1.
Proof. split; [discriminate|reflexivity]. Defined.

Lemma small_buffer_passes_untested_witness :
  RunEchoTask lossy_lib 5 10 (boot_state 5)
  = (Some true,
     {| xEchoTestBuffer :=
          {| sendBuf := test_pattern 5; recvBuf := test_pattern 5 |};
        world := [CallConnect 0 ECHO_SERVER_ENDPOINT ECHO_SERVER_PORT
                    ECHO_SEND_RECV_TIMEOUT_MS ECHO_SEND_RECV_TIMEOUT_MS;
                  CallDisconnect 1] |}).
Proof.
  rewrite (small_buffer_passes_untested lossy_lib 5 tiny_max_size_range 10
             (boot_state 5)).
  - reflexivity.
  - reflexivity.
  - reflexivity.
  - apply Nat.ltb_lt. vm_compute; reflexivity.
  - reflexivity.
  - reflexivity.
Defined.
